(** * Real-time layer of the chat backend (backend/server.js)

    A shallow embedding of the socket.io event handlers registered in
    [io.on('connection', ...)]: the [activeUsers] table, the conversation
    rooms, presence broadcasts and call signalling, followed by the
    properties of the handlers. *)

From stdpp Require Import gmap strings list pretty.
From Stdlib Require Import ZArith Lia.

Set Warnings "-clear-no-such-hyp".

Local Open Scope Z_scope.
Local Open Scope string_scope.
Local Open Scope list_scope.

(** ** Identifiers

    Socket ids and room names are strings; user and conversation ids are
    the integer keys of the [users] and [conversations] tables. *)

Abbreviation SocketId := string (only parsing).
Abbreviation Room := string (only parsing).
Abbreviation UserId := Z (only parsing).
Abbreviation ConversationId := Z (only parsing).

(** ** The JavaScript [Map]

    [new Map()] keeps its entries in insertion order, one entry per key:
    [set] on a present key replaces the value where the key stands, [set]
    on a new key appends, [entries()] iterates from the oldest key. *)

Module JsMap.

Section ordered_map.
Context {K V : Type} `{EqDecision K}.

Fixpoint get (m : list (K * V)) (k : K) : option V :=
  match m with
  | [] => None
  | (k', v) :: rest => if decide (k' = k) then Some v else get rest k
  end.

Fixpoint set (m : list (K * V)) (k : K) (v : V) : list (K * V) :=
  match m with
  | [] => [(k, v)]
  | (k', v') :: rest =>
      if decide (k' = k) then (k, v) :: rest else (k', v') :: set rest k v
  end.

Fixpoint delete (m : list (K * V)) (k : K) : list (K * V) :=
  match m with
  | [] => []
  | (k', v') :: rest =>
      if decide (k' = k) then rest else (k', v') :: delete rest k
  end.

Definition entries (m : list (K * V)) : list (K * V) := m.

(** One entry per key. *)
Definition wf (m : list (K * V)) : Prop := NoDup (m.*1).

End ordered_map.

End JsMap.

(** ** Events *)

(** Payload of [send_message]: the handler reads [conversation_id] and
    forwards the whole object. *)
Record MessageData := mkMessageData {
  conversation_id : ConversationId;
  content : string
}.

Inductive Status := online | offline.

(** Events received from a client socket, with the fields each handler
    destructures. [connection] and [disconnect] are raised by socket.io. *)
Inductive InEvent :=
| connection
| user_online (uid : UserId)
| join_conversation (conversationId : ConversationId)
| leave_conversation (conversationId : ConversationId)
| send_message (data : MessageData)
| typing_start (conversationId : ConversationId) (uid : UserId) (userName : string)
| typing_stop (conversationId : ConversationId) (uid : UserId)
| initiate_call (toUserId : UserId) (callType : string) (conversationId : ConversationId)
| accept_call (callId : string) (toUserId : UserId)
| reject_call (callId : string) (toUserId : UserId)
| end_call (callId : string) (toUserId : UserId)
| disconnect.

(** Events emitted to clients. [fromUserId] is [None] for [undefined]. *)
Inductive OutEvent :=
| user_status_change (uid : UserId) (status : Status)
| new_message (data : MessageData)
| user_typing (uid : UserId) (userName : string)
| user_stop_typing (uid : UserId)
| incoming_call (fromUserId : option UserId) (callType : string)
    (conversationId : ConversationId) (callId : string)
| call_failed (reason : string)
| call_accepted (callId : string)
| call_rejected (callId : string)
| call_ended (callId : string).

#[global] Instance MessageData_eq_dec : EqDecision MessageData.
Proof. solve_decision. Defined.

#[global] Instance Status_eq_dec : EqDecision Status.
Proof. solve_decision. Defined.

#[global] Instance OutEvent_eq_dec : EqDecision OutEvent.
Proof. solve_decision. Defined.

(** One [emit] call: the sockets it reaches and what it carries. *)
Record Emission := mkEmission {
  recipients : gset SocketId;
  payload : OutEvent
}.

(** ** Server state *)

(** The socket object captured by the handlers' closure; [userId] is the
    property read by [initiate_call]. *)
Record Socket := mkSocket {
  userId : option UserId
}.

Record Server := mkServer {
  (** [const activeUsers = new Map()] : userId -> socket.id *)
  activeUsers : list (UserId * SocketId);
  (** sockets connected to the namespace, by id *)
  sockets : gmap SocketId Socket;
  (** the adapter's rooms: room name -> member socket ids *)
  rooms : gmap Room (gset SocketId);
  (** rows of the [messages] table behind [pool]; the HTTP routes write
      it, the socket handlers have it in scope *)
  message_store : list MessageData
}.

Definition initial : Server :=
  {| activeUsers := []; sockets := ∅; rooms := ∅; message_store := [] |}.

(** *** socket.io primitives *)

Definition room_members (s : Server) (r : Room) : gset SocketId :=
  default ∅ (rooms s !! r).

(** [socket.join(r)] *)
Definition join (sid : SocketId) (r : Room) (s : Server) : Server :=
  {| activeUsers := activeUsers s;
     sockets := sockets s;
     rooms := <[r := {[sid]} ∪ room_members s r]> (rooms s);
     message_store := message_store s |}.

(** [socket.leave(r)] *)
Definition leave (sid : SocketId) (r : Room) (s : Server) : Server :=
  {| activeUsers := activeUsers s;
     sockets := sockets s;
     rooms := <[r := room_members s r ∖ {[sid]}]> (rooms s);
     message_store := message_store s |}.

(** What socket.io does when a transport closes, before the [disconnect]
    listeners run: the socket leaves every room and the namespace. *)
Definition close (sid : SocketId) (s : Server) : Server :=
  {| activeUsers := activeUsers s;
     sockets := base.delete sid (sockets s);
     rooms := (λ members, members ∖ {[sid]}) <$> rooms s;
     message_store := message_store s |}.

(** What socket.io does on a new connection: the socket object is created
    and joins the room named by its own id. *)
Definition open (sid : SocketId) (s : Server) : Server :=
  join sid sid
    {| activeUsers := activeUsers s;
       sockets := <[sid := mkSocket None]> (sockets s);
       rooms := rooms s;
       message_store := message_store s |}.

(** [socket.broadcast.emit(e)] : every connected socket but the sender *)
Definition socket_broadcast_emit (s : Server) (sid : SocketId) (e : OutEvent) : Emission :=
  {| recipients := dom (sockets s) ∖ {[sid]}; payload := e |}.

(** [socket.to(r).emit(e)] : the members of room [r] but the sender *)
Definition socket_to_emit (s : Server) (sid : SocketId) (r : Room) (e : OutEvent) : Emission :=
  {| recipients := room_members s r ∖ {[sid]}; payload := e |}.

(** [io.to(r).emit(e)] : the members of room [r] *)
Definition io_to_emit (s : Server) (r : Room) (e : OutEvent) : Emission :=
  {| recipients := room_members s r; payload := e |}.

(** [socket.emit(e)] : the socket itself *)
Definition socket_emit (sid : SocketId) (e : OutEvent) : Emission :=
  {| recipients := {[sid]}; payload := e |}.

(** [`conversation_${conversationId}`] *)
Definition conversation_room (conversationId : ConversationId) : Room :=
  "conversation_" +:+ pretty conversationId.

(** [if (targetSocketId)] : [undefined] and the empty string are falsy. *)
Definition truthy (v : option SocketId) : option SocketId :=
  match v with
  | Some t => if decide (t = "") then None else Some t
  | None => None
  end.

(** ** Handlers *)

Definition set_activeUsers (m : list (UserId * SocketId)) (s : Server) : Server :=
  {| activeUsers := m;
     sockets := sockets s;
     rooms := rooms s;
     message_store := message_store s |}.

Definition on_user_online (sid : SocketId) (uid : UserId) (s : Server)
  : Server * list Emission :=
  let s' := set_activeUsers (JsMap.set (activeUsers s) uid sid) s in
  (s', [socket_broadcast_emit s' sid (user_status_change uid online)]).

Definition on_send_message (sid : SocketId) (data : MessageData) (s : Server)
  : Server * list Emission :=
  (s, [socket_to_emit s sid (conversation_room (conversation_id data)) (new_message data)]).

Definition on_typing_start (sid : SocketId) (conversationId : ConversationId)
    (uid : UserId) (userName : string) (s : Server) : Server * list Emission :=
  (s, [socket_to_emit s sid (conversation_room conversationId) (user_typing uid userName)]).

Definition on_typing_stop (sid : SocketId) (conversationId : ConversationId)
    (uid : UserId) (s : Server) : Server * list Emission :=
  (s, [socket_to_emit s sid (conversation_room conversationId) (user_stop_typing uid)]).

(** [now] is the value of [Date.now()] when the handler runs. *)
Definition on_initiate_call (now : Z) (sid : SocketId) (sock : Socket)
    (toUserId : UserId) (callType : string) (conversationId : ConversationId)
    (s : Server) : Server * list Emission :=
  match truthy (JsMap.get (activeUsers s) toUserId) with
  | Some targetSocketId =>
      (s, [io_to_emit s targetSocketId
             (incoming_call (userId sock) callType conversationId (pretty now))])
  | None =>
      (s, [socket_emit sid (call_failed "User offline")])
  end.

(** [accept_call], [reject_call] and [end_call] differ in the event they
    forward only. *)
Definition forward_call (reply : string → OutEvent) (callId : string)
    (toUserId : UserId) (s : Server) : Server * list Emission :=
  match truthy (JsMap.get (activeUsers s) toUserId) with
  | Some targetSocketId => (s, [io_to_emit s targetSocketId (reply callId)])
  | None => (s, [])
  end.

Definition on_accept_call := forward_call call_accepted.
Definition on_reject_call := forward_call call_rejected.
Definition on_end_call := forward_call call_ended.

(** The loop of the [disconnect] handler: the first entry, in iteration
    order, whose stored socket id is [sid]; the [break] stops there. *)
Fixpoint first_owned (entries : list (UserId * SocketId)) (sid : SocketId)
  : option UserId :=
  match entries with
  | [] => None
  | (uid, sockId) :: rest =>
      if decide (sockId = sid) then Some uid else first_owned rest sid
  end.

Definition on_disconnect (sid : SocketId) (s : Server) : Server * list Emission :=
  match first_owned (JsMap.entries (activeUsers s)) sid with
  | Some uid =>
      let s' := set_activeUsers (JsMap.delete (activeUsers s) uid) s in
      (s', [socket_broadcast_emit s' sid (user_status_change uid offline)])
  | None => (s, [])
  end.

(** ** The event loop *)

(** An input: the clock reading when it is handled, the socket it arrives
    on, and the event. *)
Record Input := mkInput {
  at_ms : Z;
  on_socket : SocketId;
  event : InEvent
}.

(** Listeners exist for connected sockets only: they are registered in the
    [connection] callback. *)
Definition step (s : Server) (i : Input) : Server * list Emission :=
  let sid := on_socket i in
  match sockets s !! sid, event i with
  | None, connection => (open sid s, [])
  | None, _ => (s, [])
  | Some _, connection => (s, [])
  | Some sock, user_online uid => on_user_online sid uid s
  | Some sock, join_conversation c => (join sid (conversation_room c) s, [])
  | Some sock, leave_conversation c => (leave sid (conversation_room c) s, [])
  | Some sock, send_message data => on_send_message sid data s
  | Some sock, typing_start c uid userName => on_typing_start sid c uid userName s
  | Some sock, typing_stop c uid => on_typing_stop sid c uid s
  | Some sock, initiate_call toUserId callType c =>
      on_initiate_call (at_ms i) sid sock toUserId callType c s
  | Some sock, accept_call callId toUserId => on_accept_call callId toUserId s
  | Some sock, reject_call callId toUserId => on_reject_call callId toUserId s
  | Some sock, end_call callId toUserId => on_end_call callId toUserId s
  | Some sock, disconnect => on_disconnect sid (close sid s)
  end.

(** Handling a sequence of inputs, collecting what is emitted. *)
Fixpoint run (s : Server) (tr : list Input) : Server * list Emission :=
  match tr with
  | [] => (s, [])
  | i :: rest =>
      let '(s1, out1) := step s i in
      let '(s2, out2) := run s1 rest in
      (s2, out1 ++ out2)
  end.

Definition state_after (s : Server) (tr : list Input) : Server := (run s tr).1.
Definition emitted (s : Server) (tr : list Input) : list Emission := (run s tr).2.

(** How many of the emissions in [out] are a [user_status_change] of user
    [uid] to [status]. *)
Definition status_broadcasts (status : Status) (uid : UserId)
    (out : list Emission) : nat :=
  length (filter (λ e, payload e = user_status_change uid status) out).

(** The call ids carried by the [incoming_call] events in [out]. *)
Definition call_ids (out : list Emission) : list string :=
  omap (λ e, match payload e with
             | incoming_call _ _ _ callId => Some callId
             | _ => None
             end) out.

(** The server with other rows in the [messages] table. *)
Definition with_message_store (rows : list MessageData) (s : Server) : Server :=
  {| activeUsers := activeUsers s;
     sockets := sockets s;
     rooms := rooms s;
     message_store := rows |}.

(** The conversation a room-scoped event is addressed to, and the event
    the handler relays for it. *)
Definition room_scoped (e : InEvent) : option (ConversationId * OutEvent) :=
  match e with
  | send_message data => Some (conversation_id data, new_message data)
  | typing_start c uid userName => Some (c, user_typing uid userName)
  | typing_stop c uid => Some (c, user_stop_typing uid)
  | _ => None
  end.

(** [resolve(userId)] : the live connections the call handlers find for a
    user, i.e. what [activeUsers.get(userId)] holds. *)
Definition resolve (s : Server) (uid : UserId) : gset SocketId :=
  match JsMap.get (activeUsers s) uid with
  | Some sid => {[sid]}
  | None => ∅
  end.


(** ** Invariants *)

(** The table is a [Map]: one entry per user id. *)
Definition table_wf (s : Server) : Prop := JsMap.wf (activeUsers s).

(** No socket object carries a [userId] property. *)
Definition no_identity (s : Server) : Prop :=
  ∀ sid sock, sockets s !! sid = Some sock → userId sock = None.

(** ** Scenarios used as concrete inputs *)

Module Scenario.

Definition at_socket (sid : SocketId) (e : InEvent) : Input := mkInput 0 sid e.

(** Three connections; user 7 announces itself on two of them, [tab1]
    first and [tab2] second; [peer] watches. *)
Definition two_tabs : list Input :=
  [ at_socket "tab1" connection; at_socket "tab2" connection;
    at_socket "peer" connection;
    at_socket "tab1" (user_online 7); at_socket "tab2" (user_online 7) ].

Definition two_tabs_state : Server := state_after initial two_tabs.

(** A call from start to end: user 1 on socket [alice], user 2 on socket
    [bob], user 3 on socket [carol]; user 1 calls user 2 at clock reading
    1000, user 2 accepts, user 1 ends the call. *)
Definition three_users : list Input :=
  [ at_socket "alice" connection; at_socket "bob" connection;
    at_socket "carol" connection;
    at_socket "alice" (user_online 1); at_socket "bob" (user_online 2);
    at_socket "carol" (user_online 3) ].

Definition three_users_state : Server := state_after initial three_users.

Definition call_setup : list Input :=
  three_users ++ [ mkInput 1000 "alice" (initiate_call 2 "video" 5) ].

(** Two calls between different pairs of users, handled within the same
    millisecond. *)
Definition same_millisecond : list Input :=
  [ mkInput 1700000000000 "alice" (initiate_call 2 "video" 5);
    mkInput 1700000000000 "carol" (initiate_call 1 "audio" 6) ].

Definition ringing_state : Server := state_after initial call_setup.

Definition call_completed : list Input :=
  call_setup ++
  [ mkInput 1001 "bob" (accept_call "1000" 1);
    mkInput 1002 "alice" (end_call "1000" 2) ].

Definition call_over_state : Server := state_after initial call_completed.

(** Two sockets subscribed to conversation 5; the [messages] table is
    empty. *)
Definition conversation_joined : Server :=
  state_after initial
    [ at_socket "alice" connection; at_socket "bob" connection;
      at_socket "alice" (join_conversation 5);
      at_socket "bob" (join_conversation 5) ].

Definition hello : MessageData :=
  {| conversation_id := 5; content := "hello" |}.

(** One connection that is about to announce itself as two users, and a
    second connection that stays. *)
Definition shared_device : Server :=
  state_after initial
    [ at_socket "kiosk" connection; at_socket "peer" connection ].

(** The same three connections before anyone has announced itself. *)
Definition three_sockets : Server :=
  state_after initial
    [ at_socket "tab1" connection; at_socket "tab2" connection;
      at_socket "peer" connection ].

End Scenario.

(** ** Predicates on runs and states *)

(** A socket id that cannot be mistaken for the name of a conversation
    room (socket.io ids are random tokens). *)
Definition plain_id (sid : SocketId) : bool :=
  negb (String.prefix "conversation_" sid).

Definition plain_ids (tr : list Input) : bool :=
  forallb (λ i, plain_id (on_socket i)) tr.

(** Rooms hold connected sockets only. *)
Definition rooms_connected (s : Server) : Prop :=
  ∀ r sid, sid ∈ room_members s r → is_Some (sockets s !! sid).

(** A socket is found in the room of its own id or in conversation rooms. *)
Definition rooms_named (s : Server) : Prop :=
  ∀ r sid, sid ∈ room_members s r → r = sid ∨ ∃ c, r = conversation_room c.

(** Every connected socket sits in the room of its own id. *)
Definition own_room (s : Server) : Prop :=
  ∀ sid, is_Some (sockets s !! sid) → sid ∈ room_members s sid.

(** All socket ids the server knows are plain. *)
Definition plain_state (s : Server) : Prop :=
  (∀ sid, is_Some (sockets s !! sid) → plain_id sid = true)
  ∧ (∀ uid sid, (uid, sid) ∈ activeUsers s → plain_id sid = true).

(** The call-signalling events, sent with [io.to(targetSocketId)]. *)
Definition is_signal (e : OutEvent) : bool :=
  match e with
  | incoming_call _ _ _ _ | call_accepted _ | call_rejected _ | call_ended _ => true
  | _ => false
  end.

(** *** Further runs used as concrete inputs *)

Module Runs.

(** A shared device announces users 1 and 2 and disconnects; [peer] stays. *)
Definition kiosk_left : list Input :=
  [ Scenario.at_socket "kiosk" connection; Scenario.at_socket "peer" connection;
    mkInput 10 "kiosk" (user_online 1); mkInput 20 "kiosk" (user_online 2);
    mkInput 30 "kiosk" disconnect ].

(** [alice] and [bob] join conversation 5; [carol] is connected and joins
    conversation 6. *)
Definition two_conversations : list Input :=
  [ Scenario.at_socket "alice" connection; Scenario.at_socket "bob" connection;
    Scenario.at_socket "carol" connection;
    Scenario.at_socket "alice" (join_conversation 5);
    Scenario.at_socket "bob" (join_conversation 5);
    Scenario.at_socket "carol" (join_conversation 6) ].

End Runs.

(** The four facts that hold along runs whose socket ids are plain. *)
Definition tidy (s : Server) : Prop :=
  rooms_connected s ∧ rooms_named s ∧ own_room s ∧ plain_state s.

(** * Friend requests (backend/routes/friendships.js)

    The routes mounted under [/api/friendships], over the [friendships]
    table. [req.user.id] (set by the authentication middleware) is the
    argument [me]; what the database chooses or reads from its clock, the
    AUTO_INCREMENT id of a new row and CURRENT_TIMESTAMP, are the
    arguments [new_id] and [now]. *)

Module Friendships.

(** [status ENUM('pending', 'accepted', 'blocked')] *)
Inductive FriendshipStatus := pending | accepted | blocked.

#[global] Instance FriendshipStatus_eq_dec : EqDecision FriendshipStatus.
Proof. solve_decision. Defined.

(** A row of the [friendships] table. *)
Record Friendship := mkFriendship {
  id : Z;
  user_id1 : Z;
  user_id2 : Z;
  status : FriendshipStatus;
  action_user_id : Z;
  created_at : Z;
  updated_at : Z
}.

(** [res.status(code).json({ success, message })] *)
Record Reply := mkReply {
  code : Z;
  success : bool;
  message : string
}.

(** [!toUserId] for a body field that is absent or a number. *)
Definition falsy (toUserId : option Z) : bool :=
  match toUserId with
  | None => true
  | Some v => bool_decide (v = 0)
  end.

(** [SELECT id, status FROM friendships WHERE user_id1 = ? AND user_id2 = ?] *)
Definition select_pair (user1 user2 : Z) (t : list Friendship) : list Friendship :=
  filter (λ f, user_id1 f = user1 ∧ user_id2 f = user2) t.

(** A value an [INT] column stores; under the default strict SQL mode
    any other value makes the statement fail. *)
Definition int_column (v : Z) : bool :=
  bool_decide (-2147483648 ≤ v ≤ 2147483647)%Z.

(** A value one of the three user columns accepts: it fits the [INT]
    column and satisfies the column's foreign key. [references] tells
    which ids the foreign keys accept: init.sql declares them against
    [users(id)], the table created by [initializeTables] in
    config/database.js has none. *)
Definition accepts (references : Z → bool) (v : Z) : bool :=
  int_column v && references v.

(** The constraints of the table: [CHECK (user_id1 < user_id2)],
    [UNIQUE KEY unique_friendship (user_id1, user_id2)], the primary key
    [id], and the [INT] columns with their foreign keys. *)
Definition insert_allowed (references : Z → bool) (row : Friendship)
    (t : list Friendship) : bool :=
  bool_decide (user_id1 row < user_id2 row)
  && forallb (λ f, negb (bool_decide (user_id1 f = user_id1 row
                                      ∧ user_id2 f = user_id2 row))) t
  && forallb (λ f, negb (bool_decide (id f = id row))) t
  && (int_column (id row)
      && accepts references (user_id1 row) && accepts references (user_id2 row)
      && accepts references (action_user_id row)).

(** [INSERT INTO friendships ...]: the statement throws when a constraint
    is violated. *)
Definition insert (references : Z → bool) (row : Friendship)
    (t : list Friendship) : option (list Friendship) :=
  if insert_allowed references row t then Some (t ++ [row]) else None.

(** [router.post('/requests', ...)] *)
Definition send_request (references : Z → bool) (now new_id me : Z)
    (toUserId : option Z) (t : list Friendship) : list Friendship * Reply :=
  match toUserId with
  | Some to =>
      if falsy toUserId then (t, mkReply 400 false "User ID required")
      else if decide (to = me)
      then (t, mkReply 400 false "Cannot send friend request to yourself")
      else
        let user1 := Z.min me to in
        let user2 := Z.max me to in
        match select_pair user1 user2 t with
        | friendship :: _ =>
            match status friendship with
            | pending => (t, mkReply 400 false "Friend request already pending")
            | accepted => (t, mkReply 400 false "Already friends with this user")
            | blocked => (t, mkReply 400 false "Cannot send request to blocked user")
            end
        | [] =>
            match insert references
                    (mkFriendship new_id user1 user2 pending me now now) t with
            | Some t' => (t', mkReply 201 true "Friend request sent successfully")
            | None => (t, mkReply 500 false "Internal server error")
            end
        end
  | None => (t, mkReply 400 false "User ID required")
  end.

(** [SELECT * FROM friendships WHERE id = ? AND (user_id1 = ? OR
    user_id2 = ?) AND status = "pending"] *)
Definition select_pending_request (rid me : Z) (t : list Friendship) : list Friendship :=
  filter (λ f, id f = rid ∧ (user_id1 f = me ∨ user_id2 f = me) ∧ status f = pending) t.

(** [UPDATE friendships SET status = "accepted", action_user_id = ?,
    updated_at = CURRENT_TIMESTAMP WHERE id = ?] *)
Definition update_accepted (now me rid : Z) (t : list Friendship) : list Friendship :=
  (λ f, if decide (id f = rid)
        then mkFriendship (id f) (user_id1 f) (user_id2 f) accepted me
               (created_at f) now
        else f) <$> t.

(** [DELETE FROM friendships WHERE id = ?] *)
Definition delete_by_id (rid : Z) (t : list Friendship) : list Friendship :=
  filter (λ f, id f ≠ rid) t.

(** [router.post('/requests/:id/accept', ...)] *)
Definition accept_request (now me rid : Z) (t : list Friendship)
  : list Friendship * Reply :=
  match select_pending_request rid me t with
  | [] => (t, mkReply 404 false "Friend request not found")
  | _ :: _ =>
      (update_accepted now me rid t,
       mkReply 200 true "Friend request accepted successfully")
  end.

(** [router.post('/requests/:id/reject', ...)] *)
Definition reject_request (me rid : Z) (t : list Friendship)
  : list Friendship * Reply :=
  match select_pending_request rid me t with
  | [] => (t, mkReply 404 false "Friend request not found")
  | _ :: _ => (delete_by_id rid t, mkReply 200 true "Friend request rejected")
  end.

(** [SELECT id FROM friendships WHERE ((user_id1 = ? AND user_id2 = ?) OR
    (user_id1 = ? AND user_id2 = ?)) AND status = "accepted"] *)
Definition select_accepted_between (me friendId : Z) (t : list Friendship)
  : list Friendship :=
  filter (λ f, ((user_id1 f = me ∧ user_id2 f = friendId)
                ∨ (user_id1 f = friendId ∧ user_id2 f = me))
               ∧ status f = accepted) t.

(** [router.delete('/friends/:friendId', ...)] *)
Definition remove_friend (me friendId : Z) (t : list Friendship)
  : list Friendship * Reply :=
  match select_accepted_between me friendId t with
  | [] => (t, mkReply 404 false "Friendship not found")
  | friendship :: _ =>
      (delete_by_id (id friendship) t, mkReply 200 true "Friend removed successfully")
  end.

(** The columns of the [users] table that the list routes read. *)
Record User := mkUser {
  user_id : Z;
  username : string;
  display_name : option string;
  profile_picture_url : option string;
  user_status : string
}.

(** [FROM friendships f INNER JOIN users u1 ON f.user_id1 = u1.id
    INNER JOIN users u2 ON f.user_id2 = u2.id] *)
Definition join_users (users : list User) (t : list Friendship)
  : list (Friendship * User * User) :=
  f ← t;
  u1 ← filter (λ u, user_id1 f = user_id u) users;
  u2 ← filter (λ u, user_id2 f = user_id u) users;
  [(f, u1, u2)].

(** [otherUser] of an incoming request. *)
Record OtherUser := mkOtherUser {
  other_id : Z;
  other_username : string;
  other_display_name : option string;
  other_profile_picture_url : option string
}.

Record RequestItem := mkRequestItem {
  request_id : Z;
  otherUser : OtherUser;
  request_status : FriendshipStatus;
  request_created_at : Z
}.

(** [router.get('/requests', ...)]: the [data] of the reply. *)
Definition get_requests (me : Z) (users : list User) (t : list Friendship)
  : list RequestItem :=
  (λ '(request, u1, u2),
     let isUser1 := bool_decide (user_id1 request = me) in
     mkRequestItem (id request)
       (mkOtherUser
          (if isUser1 then user_id2 request else user_id1 request)
          (if isUser1 then username u2 else username u1)
          (if isUser1 then display_name u2 else display_name u1)
          (if isUser1 then profile_picture_url u2 else profile_picture_url u1))
       (status request) (created_at request))
  <$> filter (λ '(f, _, _), (user_id1 f = me ∨ user_id2 f = me)
                            ∧ status f = pending
                            ∧ action_user_id f ≠ me)
        (join_users users t).

Record FriendItem := mkFriendItem {
  friend_id : Z;
  friend_username : string;
  friend_display_name : option string;
  friend_profile_picture_url : option string;
  friend_status : string;
  friendship_id : Z;
  friends_since : Z
}.

(** [router.get('/friends', ...)]: the [data] of the reply. *)
Definition get_friends (me : Z) (users : list User) (t : list Friendship)
  : list FriendItem :=
  (λ '(friendship, u1, u2),
     let isUser1 := bool_decide (user_id u1 = me) in
     mkFriendItem
       (if isUser1 then user_id u2 else user_id u1)
       (if isUser1 then username u2 else username u1)
       (if isUser1 then display_name u2 else display_name u1)
       (if isUser1 then profile_picture_url u2 else profile_picture_url u1)
       (if isUser1 then user_status u2 else user_status u1)
       (id friendship) (updated_at friendship))
  <$> filter (λ '(f, _, _), (user_id1 f = me ∨ user_id2 f = me)
                            ∧ status f = accepted)
        (join_users users t).

(** The two schemas: no foreign keys, or foreign keys against [users]. *)
Definition no_foreign_keys : Z → bool := λ _, true.

Definition foreign_keys (users : list User) : Z → bool :=
  λ u, bool_decide (u ∈ user_id <$> users).

(** Sample rows used as concrete inputs. *)
Definition sample_table : list Friendship := [mkFriendship 1 3 8 accepted 8 100 120].

Definition sample_users : list User :=
  [ mkUser 3 "carol" (Some "Carol") None "online";
    mkUser 8 "heidi" None None "offline";
    mkUser 9 "ivan" (Some "Ivan") (Some "/img/ivan.png") "away" ].

(** A table that satisfies its constraints. *)
Definition valid (t : list Friendship) : Prop :=
  Forall (λ f, user_id1 f < user_id2 f) t
  ∧ NoDup ((λ f, (user_id1 f, user_id2 f)) <$> t)
  ∧ NoDup (id <$> t).

(** Some row links the two users, in one order or the other. *)
Definition linked (a b : Z) (t : list Friendship) : Prop :=
  ∃ f, f ∈ t ∧ ((user_id1 f = a ∧ user_id2 f = b) ∨ (user_id1 f = b ∧ user_id2 f = a)).

End Friendships.

(** * Read receipts (backend/routes/messages.js)

    The route [POST /api/messages/:messageId/read], over the columns of
    [messages], [conversation_participants] and [message_read_receipts]
    that it reads or writes. *)

Module ReadReceipts.

Record Message := mkMessage {
  message_row_id : Z;
  message_conversation_id : Z
}.

Record Participant := mkParticipant {
  participant_conversation_id : Z;
  participant_user_id : Z;
  is_active : bool
}.

Record Receipt := mkReceipt {
  receipt_id : Z;
  message_id : Z;
  user_id : Z;
  read_at : Z
}.

Record Reply := mkReply {
  code : Z;
  success : bool;
  message : string
}.

(** [SELECT m.conversation_id FROM messages m INNER JOIN
    conversation_participants cp ON m.conversation_id = cp.conversation_id
    WHERE m.id = ? AND cp.user_id = ?] *)
Definition select_access (messageId me : Z) (messages : list Message)
    (participants : list Participant) : list Z :=
  m ← messages;
  cp ← filter (λ cp, message_conversation_id m = participant_conversation_id cp)
         participants;
  if decide (message_row_id m = messageId ∧ participant_user_id cp = me)
  then [message_conversation_id m] else [].

(** [INSERT INTO message_read_receipts (message_id, user_id) VALUES (?, ?)
    ON DUPLICATE KEY UPDATE read_at = CURRENT_TIMESTAMP], with the unique
    key [(message_id, user_id)]. [references] is the foreign key of
    [user_id] where the schema declares one; that of [message_id] holds
    for a message the lookup has found. *)
Definition upsert_receipt (references : Z → bool) (now new_id messageId me : Z)
    (receipts : list Receipt) : option (list Receipt) :=
  if bool_decide (Exists (λ r, message_id r = messageId ∧ user_id r = me) receipts)
  then Some ((λ r, if decide (message_id r = messageId ∧ user_id r = me)
                   then mkReceipt (receipt_id r) (message_id r) (user_id r) now
                   else r) <$> receipts)
  else if references me
       then Some (receipts ++ [mkReceipt new_id messageId me now])
       else None.

(** [router.post('/:messageId/read', ...)] *)
Definition mark_read (references : Z → bool) (now new_id me messageId : Z)
    (messages : list Message) (participants : list Participant)
    (receipts : list Receipt) : list Receipt * Reply :=
  match select_access messageId me messages participants with
  | [] => (receipts, mkReply 404 false "Message not found or access denied")
  | _ :: _ =>
      match upsert_receipt references now new_id messageId me receipts with
      | Some receipts' => (receipts', mkReply 200 true "Message marked as read")
      | None => (receipts, mkReply 500 false "Internal server error")
      end
  end.

(** The user takes part in the conversation of the message, as an active
    participant or not. *)
Definition has_access (messageId me : Z) (messages : list Message)
    (participants : list Participant) : Prop :=
  ∃ m cp, m ∈ messages ∧ cp ∈ participants
          ∧ message_row_id m = messageId
          ∧ participant_conversation_id cp = message_conversation_id m
          ∧ participant_user_id cp = me.

(** One receipt per message and user. *)
Definition unique_receipts (receipts : list Receipt) : Prop :=
  NoDup ((λ r, (message_id r, user_id r)) <$> receipts).

(** Sample rows used as concrete inputs: user 4 has left conversation 7. *)
Definition sample_messages : list Message := [mkMessage 11 7; mkMessage 12 7].

Definition sample_participants : list Participant :=
  [mkParticipant 7 3 true; mkParticipant 7 4 false].

Definition sample_receipts : list Receipt := [mkReceipt 1 11 3 500].

End ReadReceipts.

(** * Properties *)

(** ** The ordered map *)

Module JsMapFacts.

Section facts.
Context {K V : Type} `{EqDecision K}.
Implicit Types (m : list (K * V)) (k : K) (v : V).

Lemma get_set_eq m k v : JsMap.get (JsMap.set m k v) k = Some v.
Proof.
  induction m as [|[k' v'] m IH]; csimpl.
  - by rewrite decide_True.
  - destruct (decide (k' = k)) as [->|Hne]; csimpl.
    + by rewrite decide_True.
    + by rewrite decide_False.
Qed.

Lemma get_set_ne m k k' v :
  k ≠ k' → JsMap.get (JsMap.set m k v) k' = JsMap.get m k'.
Proof.
  intros Hne. induction m as [|[k0 v0] m IH]; csimpl.
  - by rewrite decide_False.
  - destruct (decide (k0 = k)) as [->|Hne0]; csimpl.
    + by rewrite !decide_False.
    + by rewrite IH.
Qed.

Lemma keys_set_present m k v : k ∈ m.*1 → (JsMap.set m k v).*1 = m.*1.
Proof.
  induction m as [|[k0 v0] m IH]; csimpl; [set_solver |].
  intros Hin. destruct (decide (k0 = k)) as [->|Hne0]; csimpl; [done |].
  rewrite IH; [done | set_solver].
Qed.

Lemma keys_set_fresh m k v : k ∉ m.*1 → (JsMap.set m k v).*1 = m.*1 ++ [k].
Proof.
  induction m as [|[k0 v0] m IH]; csimpl; [done |].
  intros Hin. destruct (decide (k0 = k)) as [->|Hne0]; csimpl; [set_solver |].
  rewrite IH; [done | set_solver].
Qed.

Lemma wf_set m k v : JsMap.wf m → JsMap.wf (JsMap.set m k v).
Proof.
  unfold JsMap.wf. intros Hm. destruct (decide (k ∈ m.*1)) as [Hin|Hnin].
  - by rewrite keys_set_present.
  - rewrite keys_set_fresh; [| done].
    apply NoDup_app. repeat split; [done | set_solver | apply NoDup_singleton].
Qed.

Lemma keys_delete_sub m k : (JsMap.delete m k).*1 ⊆ m.*1.
Proof.
  induction m as [|[k0 v0] m IH]; csimpl; [done |].
  destruct (decide (k0 = k)); csimpl; set_solver.
Qed.

Lemma wf_delete m k : JsMap.wf m → JsMap.wf (JsMap.delete m k).
Proof.
  unfold JsMap.wf. induction m as [|[k0 v0] m IH]; csimpl; [done |].
  intros [Hk0 Hm]%NoDup_cons.
  destruct (decide (k0 = k)); csimpl; [done |].
  apply NoDup_cons. split; [| by apply IH].
  intros Hin. by apply Hk0, (keys_delete_sub m k).
Qed.

Lemma get_None_keys m k : JsMap.get m k = None ↔ k ∉ m.*1.
Proof.
  induction m as [|[k0 v0] m IH]; csimpl; [set_solver |].
  destruct (decide (k0 = k)) as [->|Hne]; [set_solver |].
  rewrite IH. set_solver.
Qed.

Lemma get_delete_eq m k : JsMap.wf m → JsMap.get (JsMap.delete m k) k = None.
Proof.
  unfold JsMap.wf. induction m as [|[k0 v0] m IH]; csimpl; [done |].
  intros [Hk0 Hm]%NoDup_cons.
  destruct (decide (k0 = k)) as [->|Hne]; csimpl.
  - by apply get_None_keys.
  - rewrite decide_False; [by apply IH | done].
Qed.

Lemma get_delete_ne m k k' :
  k ≠ k' → JsMap.get (JsMap.delete m k) k' = JsMap.get m k'.
Proof.
  intros Hne. induction m as [|[k0 v0] m IH]; csimpl; [done |].
  destruct (decide (k0 = k)) as [->|Hne0]; csimpl.
  - by rewrite decide_False.
  - by rewrite IH.
Qed.

Lemma length_delete m k :
  (length m ≤ S (length (JsMap.delete m k)))%nat.
Proof.
  induction m as [|[k0 v0] m IH]; csimpl; [lia |].
  destruct (decide (k0 = k)); csimpl; lia.
Qed.

Lemma get_Some_elem m k v : JsMap.get m k = Some v → (k, v) ∈ m.
Proof.
  induction m as [|[k0 v0] m IH]; csimpl; [done |].
  destruct (decide (k0 = k)) as [->|Hne]; [intros [= ->] | intros ?%IH];
    set_solver.
Qed.

Lemma elem_get_Some m k v : JsMap.wf m → (k, v) ∈ m → JsMap.get m k = Some v.
Proof.
  unfold JsMap.wf. induction m as [|[k0 v0] m IH]; csimpl; [set_solver |].
  intros [Hk0 Hm]%NoDup_cons [Heq|Hin]%elem_of_cons.
  - injection Heq as -> ->. by rewrite decide_True.
  - destruct (decide (k0 = k)) as [->|Hne]; [| by apply IH].
    exfalso. apply Hk0. apply list_elem_of_fmap. by exists (k, v).
Qed.

End facts.

End JsMapFacts.

(** ** The cleanup loop *)

Lemma first_owned_elem (m : list (Z * string)) sid uid :
  first_owned m sid = Some uid → (uid, sid) ∈ m.
Proof.
  induction m as [|[u0 s0] m IH]; simpl; [done |].
  destruct (decide (s0 = sid)) as [->|Hne]; [intros [= ->] | intros ?%IH];
    set_solver.
Qed.

Lemma first_owned_get (m : list (Z * string)) sid uid :
  JsMap.wf m → first_owned m sid = Some uid → JsMap.get m uid = Some sid.
Proof.
  intros Hwf Hfirst. apply JsMapFacts.elem_get_Some; [done |].
  by apply first_owned_elem.
Qed.

Lemma first_owned_None (m : list (Z * string)) sid :
  first_owned m sid = None ↔ ∀ uid, (uid, sid) ∉ m.
Proof.
  induction m as [|[u0 s0] m IH]; simpl; [set_solver |].
  destruct (decide (s0 = sid)) as [->|Hne].
  - split; [done |]. intros Hno. exfalso. apply (Hno u0). set_solver.
  - rewrite IH. split; intros Hno uid; specialize (Hno uid); set_solver.
Qed.

Lemma first_owned_holder (m : list (Z * string)) sid uid :
  JsMap.get m uid = Some sid → is_Some (first_owned m sid).
Proof.
  intros Hget%JsMapFacts.get_Some_elem.
  destruct (first_owned m sid) eqn:Hfirst; [by eexists |].
  exfalso. by eapply first_owned_None.
Qed.

(** ** Invariants of the event loop *)

Ltac unfold_handlers :=
  unfold on_user_online, on_send_message, on_typing_start, on_typing_stop,
    on_initiate_call, on_accept_call, on_reject_call, on_end_call,
    forward_call, on_disconnect in *.

Lemma step_table_wf s i : table_wf s → table_wf (step s i).1.
Proof.
  unfold table_wf, step. intros Hwf.
  destruct (sockets s !! on_socket i), (event i); simpl; try done;
    unfold_handlers; simpl;
    repeat match goal with |- context [match ?x with _ => _ end] => destruct x eqn:? end;
    simpl; try done.
  - by apply JsMapFacts.wf_set.
  - by apply JsMapFacts.wf_delete.
Qed.

Lemma run_table_wf tr : ∀ s, table_wf s → table_wf (state_after s tr).
Proof.
  unfold state_after. induction tr as [|i tr IH]; intros s Hwf; simpl; [done |].
  pose proof (step_table_wf s i Hwf) as Hstep.
  destruct (step s i) as [s1 out1]. specialize (IH s1 Hstep).
  by destruct (run s1 tr) as [s2 out2].
Qed.

Lemma initial_table_wf : table_wf initial.
Proof. apply NoDup_nil_2. Qed.

Lemma step_no_identity s i : no_identity s → no_identity (step s i).1.
Proof.
  unfold no_identity, step. intros Hinv sid sock.
  destruct (sockets s !! on_socket i) eqn:Hconn, (event i); simpl;
    unfold_handlers; simpl;
    repeat match goal with |- context [match ?x with _ => _ end] => destruct x eqn:? end;
    simpl; intros Hsock;
    first
      [ by eapply Hinv
      | apply lookup_insert_Some in Hsock as [[_ <-]|[_ Hold]];
          [done | by eapply Hinv]
      | apply lookup_delete_Some in Hsock as [_ Hold]; by eapply Hinv ].
Qed.

Lemma run_no_identity tr : ∀ s, no_identity s → no_identity (state_after s tr).
Proof.
  unfold state_after. induction tr as [|i tr IH]; intros s Hinv; simpl; [done |].
  pose proof (step_no_identity s i Hinv) as Hstep.
  destruct (step s i) as [s1 out1]. specialize (IH s1 Hstep).
  by destruct (run s1 tr) as [s2 out2].
Qed.

Lemma initial_no_identity : no_identity initial.
Proof. intros sid sock Hsock. simpl in Hsock. by apply lookup_empty_Some in Hsock. Qed.

(** ** Handlers seen through the event loop *)

Lemma step_user_online s t sid uid :
  is_Some (sockets s !! sid) →
  step s (mkInput t sid (user_online uid)) = on_user_online sid uid s.
Proof. intros [sock Hsock]. unfold step; simpl. by rewrite Hsock. Qed.

Lemma step_disconnect s t sid :
  is_Some (sockets s !! sid) →
  step s (mkInput t sid disconnect) = on_disconnect sid (close sid s).
Proof. intros [sock Hsock]. unfold step; simpl. by rewrite Hsock. Qed.

Lemma sockets_user_online s sid uid :
  sockets (on_user_online sid uid s).1 = sockets s.
Proof. done. Qed.

Lemma resolve_user_online s sid uid :
  resolve (on_user_online sid uid s).1 uid = {[sid]}.
Proof. unfold resolve; simpl. by rewrite JsMapFacts.get_set_eq. Qed.

(** ** C1: connections registered for one user *)

(** C1, as stated, fails: after user 7 has announced itself on [tab1] and
    then on [tab2], the connections resolved for user 7 do not contain
    both connection ids. *)
Lemma C1_both_connections_counterexample :
  ¬ ("tab1" ∈ resolve Scenario.two_tabs_state 7
     ∧ "tab2" ∈ resolve Scenario.two_tabs_state 7).
Proof. intros [Htab1 _]. revert Htab1. by vm_compute. Qed.

(** C1, amended: the table keeps one connection id per user. After
    [user_online] has been handled for the same user on two distinct
    connected sockets, the user resolves to the second socket alone; the
    first one is no longer registered for the user. *)
Theorem C1_latest_connection_only s t1 t2 c1 c2 uid :
  c1 ≠ c2 →
  is_Some (sockets s !! c1) →
  is_Some (sockets s !! c2) →
  let s' := state_after s [mkInput t1 c1 (user_online uid);
                           mkInput t2 c2 (user_online uid)] in
  resolve s' uid = {[c2]} ∧ c1 ∉ resolve s' uid.
Proof.
  intros Hne Hc1 Hc2 s'.
  assert (resolve s' uid = {[c2]}) as Hres.
  { subst s'. unfold state_after. cbn [run].
    rewrite step_user_online by done.
    destruct (on_user_online c1 uid s) as [s1 out1] eqn:Hfirst.
    assert (sockets s1 = sockets s) as Hsock
      by (by rewrite <- (sockets_user_online s c1 uid), Hfirst).
    rewrite step_user_online by (by rewrite Hsock).
    destruct (on_user_online c2 uid s1) as [s2 out2] eqn:Hsecond. simpl.
    by rewrite <- (resolve_user_online s1 c2 uid), Hsecond. }
  split; [done |]. rewrite Hres. set_solver.
Qed.

Lemma C1_latest_connection_only_witness :
  "tab1" ≠ "tab2"
  ∧ (let s' := state_after (state_after initial
                 [Scenario.at_socket "tab1" connection;
                  Scenario.at_socket "tab2" connection])
                 [mkInput 1 "tab1" (user_online 7);
                  mkInput 2 "tab2" (user_online 7)] in
     resolve s' 7 = {["tab2"]} ∧ "tab1" ∉ resolve s' 7).
Proof.
  split; [done |].
  apply (C1_latest_connection_only _ 1 2 "tab1" "tab2" 7); [done | |];
    vm_compute; by eexists.
Defined.

(** ** C2: presence broadcasts *)

Lemma first_owned_after_set (m : list (Z * string)) uid c u' :
  JsMap.wf m →
  first_owned (JsMap.set m uid c) c = Some u' →
  u' = uid ∨ (u' ≠ uid ∧ JsMap.get m u' = Some c).
Proof.
  intros Hwf Hfirst. destruct (decide (u' = uid)) as [->|Hne]; [by left |].
  right. split; [done |].
  apply first_owned_get in Hfirst; [| by apply JsMapFacts.wf_set].
  by rewrite JsMapFacts.get_set_ne in Hfirst.
Qed.

Lemma dom_close_minus (s : Server) c :
  dom (sockets (close c s)) ∖ {[c]} = dom (sockets s) ∖ {[c]}.
Proof. simpl. rewrite dom_delete_L. set_solver. Qed.

(** C2, as stated, fails: user 7 is announced on [tab1] and on [tab2]; the
    claim allows one "online" broadcast for the two announcements and no
    "offline" broadcast when [tab2] disconnects while [tab1] stays. *)
Lemma C2_once_per_transition_counterexample :
  ¬ (status_broadcasts online 7 (emitted initial Scenario.two_tabs) = 1%nat
     ∧ status_broadcasts offline 7
         (emitted Scenario.two_tabs_state
            [Scenario.at_socket "tab2" disconnect]) = 0%nat).
Proof. intros [Honline _]. revert Honline. by vm_compute. Qed.

(** C2, amended: there is no connection count. Every [user_online] on a
    connected socket [c] emits one "online" broadcast to all other
    sockets, whatever the table held before. Afterwards the user's entry
    names [c]: the disconnect of any other socket emits no "offline"
    broadcast for the user, and the disconnect of [c] emits exactly one,
    to all other sockets, provided [c] held no other user's entry. *)
Theorem C2_presence_follows_latest_socket s t c uid :
  table_wf s →
  is_Some (sockets s !! c) →
  let result := step s (mkInput t c (user_online uid)) in
  result.2 = [mkEmission (dom (sockets s) ∖ {[c]}) (user_status_change uid online)]
  ∧ (∀ t' d, d ≠ c →
       status_broadcasts offline uid
         (step result.1 (mkInput t' d disconnect)).2 = 0%nat)
  ∧ (∀ t', (∀ u', JsMap.get (activeUsers s) u' = Some c → u' = uid) →
       (step result.1 (mkInput t' c disconnect)).2
       = [mkEmission (dom (sockets s) ∖ {[c]}) (user_status_change uid offline)]).
Proof.
  intros Hwf Hc result. subst result. rewrite step_user_online by done.
  split; [done |]. split.
  - intros t' d Hne.
    destruct (sockets (on_user_online c uid s).1 !! d) as [sock|] eqn:Hd.
    + rewrite step_disconnect by (by eexists).
      unfold on_disconnect. cbn [JsMap.entries close activeUsers on_user_online fst set_activeUsers].
      destruct (first_owned (JsMap.set (activeUsers s) uid c) d) as [u'|] eqn:Hfirst;
        [| done].
      apply first_owned_get in Hfirst; [| by apply JsMapFacts.wf_set].
      assert (u' ≠ uid) as Hu'.
      { intros ->. rewrite JsMapFacts.get_set_eq in Hfirst. congruence. }
      unfold status_broadcasts. cbn [snd].
      rewrite filter_cons_False; [done |]. simpl. congruence.
    + unfold step. cbn [on_socket event]. by rewrite Hd.
  - intros t' Honly.
    rewrite step_disconnect by done.
    unfold on_disconnect. cbn [JsMap.entries close activeUsers on_user_online fst set_activeUsers].
    destruct (first_owned_holder (JsMap.set (activeUsers s) uid c) c uid) as [u' Hfirst];
      [by rewrite JsMapFacts.get_set_eq |].
    rewrite Hfirst.
    destruct (first_owned_after_set _ _ _ _ Hwf Hfirst) as [->|[Hne Hget]];
      [| by destruct Hne; apply Honly].
    cbn [snd]. unfold socket_broadcast_emit. cbn [sockets set_activeUsers].
    by rewrite dom_close_minus.
Qed.

Lemma C2_presence_follows_latest_socket_witness :
  table_wf Scenario.three_sockets
  ∧ is_Some (sockets Scenario.three_sockets !! "tab2")
  ∧ (let result := step Scenario.three_sockets (mkInput 5 "tab2" (user_online 7)) in
     result.2 = [mkEmission (dom (sockets Scenario.three_sockets) ∖ {["tab2"]})
                   (user_status_change 7 online)]
     ∧ (∀ t' d, d ≠ "tab2" →
          status_broadcasts offline 7
            (step result.1 (mkInput t' d disconnect)).2 = 0%nat)
     ∧ (∀ t', (∀ u', JsMap.get (activeUsers Scenario.three_sockets) u' = Some "tab2"
                     → u' = 7) →
          (step result.1 (mkInput t' "tab2" disconnect)).2
          = [mkEmission (dom (sockets Scenario.three_sockets) ∖ {["tab2"]})
               (user_status_change 7 offline)])).
Proof.
  assert (table_wf Scenario.three_sockets) as Hwf
    by (vm_compute; apply NoDup_nil_2).
  assert (is_Some (sockets Scenario.three_sockets !! "tab2")) as Hconn
    by (vm_compute; by eexists).
  split; [exact Hwf |]. split; [exact Hconn |].
  exact (C2_presence_follows_latest_socket Scenario.three_sockets 5 "tab2" 7 Hwf Hconn).
Defined.

(** ** C3, C4: accept, reject and end *)

Lemma forward_call_state reply callId toUserId s :
  (forward_call reply callId toUserId s).1 = s.
Proof. unfold forward_call. by destruct (truthy _). Qed.

Lemma step_forward_state s t sid callId toUserId op reply :
  (op, reply) ∈ [(accept_call, call_accepted); (reject_call, call_rejected);
                 (end_call, call_ended)] →
  (step s (mkInput t sid (op callId toUserId))).1 = s.
Proof.
  intros Hop. unfold step. cbn [on_socket event].
  destruct (sockets s !! sid) as [sock|];
    repeat (apply elem_of_cons in Hop as [[= -> ->]|Hop]; [try done |]);
    try (by apply forward_call_state); by apply elem_of_nil in Hop.
Qed.

Lemma step_forward_emits s t sid callId toUserId op reply :
  (op, reply) ∈ [(accept_call, call_accepted); (reject_call, call_rejected);
                 (end_call, call_ended)] →
  is_Some (sockets s !! sid) →
  (step s (mkInput t sid (op callId toUserId))).2
  = match truthy (JsMap.get (activeUsers s) toUserId) with
    | Some target => [mkEmission (room_members s target) (reply callId)]
    | None => []
    end.
Proof.
  intros Hop [sock Hsock]. unfold step. cbn [on_socket event]. rewrite Hsock.
  repeat (apply elem_of_cons in Hop as [[= -> ->]|Hop];
          [unfold_handlers; by destruct (truthy _) |]).
  by apply elem_of_nil in Hop.
Qed.

Lemma run_repeat_stateless s i :
  (step s i).1 = s →
  ∀ n, run s (replicate n i) = (s, mjoin (replicate n (step s i).2)).
Proof.
  intros Hsame n. induction n as [|n IH]; [done |].
  cbn [replicate run mjoin list_join]. destruct (step s i) as [s1 out1] eqn:Hstep.
  simpl in Hsame. subst s1. by rewrite IH.
Qed.

(** C3, as stated, fails: after the call with id "1000" has been
    initiated, accepted and ended, a second [end_call] with the same id is
    not refused; it emits an event. *)
Lemma C3_terminal_call_counterexample :
  ¬ (step Scenario.call_over_state (mkInput 1003 "alice" (end_call "1000" 2))
     = (Scenario.call_over_state, [])).
Proof. by vm_compute. Qed.

(** C3, amended: the server keeps no call sessions. [accept_call],
    [reject_call] and [end_call] leave the server state as it is for every
    call id, and a connected socket's operation forwards the matching
    event with that call id to the socket registered for [toUserId] (when
    a truthy one is registered); repeating the operation repeats the
    event. *)
Theorem C3_call_operations_keep_no_session s t sid callId toUserId op reply :
  (op, reply) ∈ [(accept_call, call_accepted); (reject_call, call_rejected);
                 (end_call, call_ended)] →
  let i := mkInput t sid (op callId toUserId) in
  (step s i).1 = s
  ∧ (∀ target, is_Some (sockets s !! sid) →
       truthy (JsMap.get (activeUsers s) toUserId) = Some target →
       (step s i).2 = [mkEmission (room_members s target) (reply callId)])
  ∧ (∀ n, run s (replicate n i) = (s, mjoin (replicate n (step s i).2))).
Proof.
  intros Hop i. subst i. split; [by eapply step_forward_state |]. split.
  - intros target Hconn Htarget.
    rewrite (step_forward_emits _ _ _ _ _ _ _ Hop Hconn). by rewrite Htarget.
  - apply run_repeat_stateless. by eapply step_forward_state.
Qed.

Lemma C3_call_operations_keep_no_session_witness :
  (end_call, call_ended)
    ∈ [(accept_call, call_accepted); (reject_call, call_rejected);
       (end_call, call_ended)]
  ∧ (let i := mkInput 1003 "alice" (end_call "1000" 2) in
     (step Scenario.call_over_state i).1 = Scenario.call_over_state
     ∧ (∀ target, is_Some (sockets Scenario.call_over_state !! "alice") →
          truthy (JsMap.get (activeUsers Scenario.call_over_state) 2) = Some target →
          (step Scenario.call_over_state i).2
          = [mkEmission (room_members Scenario.call_over_state target)
               (call_ended "1000")])
     ∧ (∀ n, run Scenario.call_over_state (replicate n i)
             = (Scenario.call_over_state,
                mjoin (replicate n (step Scenario.call_over_state i).2)))).
Proof.
  assert ((end_call, call_ended)
            ∈ [(accept_call, call_accepted); (reject_call, call_rejected);
               (end_call, call_ended)]) as Hop
    by (do 2 apply list_elem_of_further; apply list_elem_of_here).
  split; [exact Hop |].
  exact (C3_call_operations_keep_no_session
           Scenario.call_over_state 1003 "alice" "1000" 2 end_call call_ended Hop).
Defined.

(** C4, as stated, fails: user 1 called user 2, and the socket of user 3
    accepts the call; the server does not refuse, it notifies the caller. *)
Lemma C4_not_callee_counterexample :
  ¬ (emitted Scenario.ringing_state [mkInput 1001 "carol" (accept_call "1000" 1)]
     = []).
Proof. by vm_compute. Qed.

(** C4, amended: the server records no callee and performs no check. What
    [accept_call] does is the same whichever connected socket sends it:
    the state is unchanged and [call_accepted] goes to the socket
    registered for [toUserId]. *)
Theorem C4_accept_from_any_socket s t1 t2 sid1 sid2 callId toUserId :
  is_Some (sockets s !! sid1) →
  is_Some (sockets s !! sid2) →
  step s (mkInput t1 sid1 (accept_call callId toUserId))
  = step s (mkInput t2 sid2 (accept_call callId toUserId))
  ∧ (step s (mkInput t1 sid1 (accept_call callId toUserId))).1 = s
  ∧ (∀ target, truthy (JsMap.get (activeUsers s) toUserId) = Some target →
       (step s (mkInput t1 sid1 (accept_call callId toUserId))).2
       = [mkEmission (room_members s target) (call_accepted callId)]).
Proof.
  intros [sock1 Hsock1] [sock2 Hsock2]. unfold step. cbn [on_socket event].
  rewrite Hsock1, Hsock2. split; [done |]. split.
  - apply forward_call_state.
  - intros target Htarget. unfold_handlers. by rewrite Htarget.
Qed.

Lemma C4_accept_from_any_socket_witness :
  is_Some (sockets Scenario.ringing_state !! "carol")
  ∧ is_Some (sockets Scenario.ringing_state !! "bob")
  ∧ step Scenario.ringing_state (mkInput 1001 "carol" (accept_call "1000" 1))
    = step Scenario.ringing_state (mkInput 1001 "bob" (accept_call "1000" 1))
  ∧ (step Scenario.ringing_state (mkInput 1001 "carol" (accept_call "1000" 1))).1
    = Scenario.ringing_state
  ∧ (∀ target,
       truthy (JsMap.get (activeUsers Scenario.ringing_state) 1) = Some target →
       (step Scenario.ringing_state (mkInput 1001 "carol" (accept_call "1000" 1))).2
       = [mkEmission (room_members Scenario.ringing_state target)
            (call_accepted "1000")]).
Proof.
  assert (is_Some (sockets Scenario.ringing_state !! "carol")) as Hcarol
    by (vm_compute; by eexists).
  assert (is_Some (sockets Scenario.ringing_state !! "bob")) as Hbob
    by (vm_compute; by eexists).
  split; [exact Hcarol |]. split; [exact Hbob |].
  exact (C4_accept_from_any_socket
           Scenario.ringing_state 1001 1001 "carol" "bob" "1000" 1 Hcarol Hbob).
Defined.

(** ** C5: messages and the store *)

(** C5, as stated, fails: with nothing in the message store before or
    after the handler runs, [send_message] still emits [new_message]. *)
Lemma C5_persist_then_broadcast_counterexample :
  ¬ (emitted Scenario.conversation_joined
       [mkInput 10 "alice" (send_message Scenario.hello)] = []
     ∨ Scenario.hello
         ∈ message_store
             (state_after Scenario.conversation_joined
                [mkInput 10 "alice" (send_message Scenario.hello)])).
Proof.
  intros [Hnone|Hstored]; [by vm_compute in Hnone |].
  vm_compute in Hstored. by apply elem_of_nil in Hstored.
Qed.

(** C5, amended: the [send_message] handler does not involve the message
    store. On a connected socket it relays the payload as [new_message]
    to the other members of the conversation room, leaves the store as it
    was, and emits the same whatever the store holds. *)
Theorem C5_send_message_relays_unconditionally s t sid data rows :
  is_Some (sockets s !! sid) →
  let i := mkInput t sid (send_message data) in
  (step s i).2
  = [mkEmission
       (room_members s (conversation_room (conversation_id data)) ∖ {[sid]})
       (new_message data)]
  ∧ (step s i).1 = s
  ∧ (step (with_message_store rows s) i).2 = (step s i).2.
Proof.
  intros [sock Hsock] i. subst i. unfold step. cbn [on_socket event].
  cbn [with_message_store sockets]. by rewrite Hsock.
Qed.

Lemma C5_send_message_relays_unconditionally_witness :
  is_Some (sockets Scenario.conversation_joined !! "alice")
  ∧ (let i := mkInput 10 "alice" (send_message Scenario.hello) in
     (step Scenario.conversation_joined i).2
     = [mkEmission
          (room_members Scenario.conversation_joined
             (conversation_room (conversation_id Scenario.hello)) ∖ {["alice"]})
          (new_message Scenario.hello)]
     ∧ (step Scenario.conversation_joined i).1 = Scenario.conversation_joined
     ∧ (step (with_message_store [Scenario.hello] Scenario.conversation_joined) i).2
       = (step Scenario.conversation_joined i).2).
Proof.
  assert (is_Some (sockets Scenario.conversation_joined !! "alice")) as Hconn
    by (vm_compute; by eexists).
  split; [exact Hconn |].
  exact (C5_send_message_relays_unconditionally
           Scenario.conversation_joined 10 "alice" Scenario.hello
           [Scenario.hello] Hconn).
Defined.

(** ** C6: calling a user who is not registered *)

Lemma resolve_empty s uid :
  resolve s uid = ∅ ↔ JsMap.get (activeUsers s) uid = None.
Proof.
  unfold resolve. destruct (JsMap.get (activeUsers s) uid) as [sid|]; [| done].
  split; [| done]. intros Hempty. exfalso.
  apply (not_elem_of_empty (C:=gset string) sid). rewrite <- Hempty. set_solver.
Qed.




(** ** C7: room-scoped events *)

(** Subscribing: after [join_conversation] the socket is a member of the
    conversation room, after [leave_conversation] it is not. *)
Lemma join_conversation_subscribes s t sid c :
  is_Some (sockets s !! sid) →
  sid ∈ room_members (step s (mkInput t sid (join_conversation c))).1
          (conversation_room c).
Proof.
  intros [sock Hsock]. unfold step. cbn [on_socket event]. rewrite Hsock.
  unfold room_members at 1. cbn [fst join rooms].
  rewrite lookup_insert_eq. set_solver.
Qed.

Lemma leave_conversation_unsubscribes s t sid c :
  is_Some (sockets s !! sid) →
  sid ∉ room_members (step s (mkInput t sid (leave_conversation c))).1
          (conversation_room c).
Proof.
  intros [sock Hsock]. unfold step. cbn [on_socket event]. rewrite Hsock.
  unfold room_members at 1. cbn [fst leave rooms].
  rewrite lookup_insert_eq. set_solver.
Qed.

(** C7: a [send_message], [typing_start] or [typing_stop] arriving on a
    connected socket is relayed in one emission that never reaches the
    sender's socket and reaches every other socket subscribed to the
    conversation room. *)
Theorem C7_room_send_excludes_sender s t sid ev conversationId relayed :
  is_Some (sockets s !! sid) →
  room_scoped ev = Some (conversationId, relayed) →
  ∃ e, snd (step s (mkInput t sid ev)) = [e]
       ∧ payload e = relayed
       ∧ (sid ∉ recipients e)
       ∧ (∀ d, d ∈ room_members s (conversation_room conversationId) →
               d ≠ sid → d ∈ recipients e).
Proof.
  intros [sock Hsock] Hscoped.
  exists (socket_to_emit s sid (conversation_room conversationId) relayed).
  split.
  - unfold step. cbn [on_socket event]. rewrite Hsock.
    destruct ev; simpl in Hscoped; try done; by injection Hscoped as <- <-.
  - cbn [socket_to_emit payload recipients]. set_solver.
Qed.

Lemma C7_room_send_excludes_sender_witness :
  is_Some (sockets Scenario.conversation_joined !! "alice")
  ∧ room_scoped (typing_start 5 1 "Alice") = Some (5, user_typing 1 "Alice")
  ∧ ∃ e, snd (step Scenario.conversation_joined
                (mkInput 10 "alice" (typing_start 5 1 "Alice"))) = [e]
         ∧ payload e = user_typing 1 "Alice"
         ∧ ("alice" ∉ recipients e)
         ∧ (∀ d, d ∈ room_members Scenario.conversation_joined (conversation_room 5) →
                 d ≠ "alice" → d ∈ recipients e).
Proof.
  assert (is_Some (sockets Scenario.conversation_joined !! "alice")) as Hconn
    by (vm_compute; by eexists).
  split; [exact Hconn |]. split; [reflexivity |].
  exact (C7_room_send_excludes_sender Scenario.conversation_joined 10 "alice"
           (typing_start 5 1 "Alice") 5 (user_typing 1 "Alice") Hconn eq_refl).
Defined.

(** ** C8: call ids *)

Lemma call_ids_step s i :
  call_ids (step s i).2 `sublist_of` [pretty (at_ms i)].
Proof.
  unfold step.
  destruct (sockets s !! on_socket i), (event i); cbn [snd];
    unfold_handlers;
    repeat match goal with |- context [match ?x with _ => _ end] => destruct x end;
    cbn; first [ apply sublist_nil_l | reflexivity ].
Qed.

Lemma call_ids_run tr : ∀ s,
  call_ids (emitted s tr) `sublist_of` (pretty <$> (at_ms <$> tr)).
Proof.
  unfold emitted. induction tr as [|i tr IH]; intros s; [done |].
  cbn [run]. pose proof (call_ids_step s i) as Hstep.
  destruct (step s i) as [s1 out1]. specialize (IH s1).
  destruct (run s1 tr) as [s2 out2]. cbn [snd] in *.
  unfold call_ids in *. rewrite omap_app.
  rewrite !fmap_cons. by apply (sublist_app _ [pretty (at_ms i)]).
Qed.

(** C8, as stated, fails: two calls between different users that are
    handled within the same millisecond are both delivered, and carry the
    same call id. *)
Lemma C8_unique_call_id_counterexample :
  ¬ NoDup (call_ids (emitted Scenario.three_users_state Scenario.same_millisecond)).
Proof.
  assert (call_ids (emitted Scenario.three_users_state Scenario.same_millisecond)
          = ["1700000000000"; "1700000000000"]) as -> by (vm_compute; reflexivity).
  intros [Hfresh _]%NoDup_cons. apply Hfresh, list_elem_of_here.
Qed.

(** C8, amended: the call id is the decimal form of the clock reading
    [Date.now()] at which the call is handled. In any run whose inputs
    are handled at pairwise distinct clock readings, the call ids of the
    delivered calls are pairwise distinct; the call id of a call is fixed
    by the clock reading alone. *)
Theorem C8_call_ids_distinct_across_milliseconds s tr :
  NoDup (at_ms <$> tr) →
  NoDup (call_ids (emitted s tr))
  ∧ (∀ s' i callId, callId ∈ call_ids (step s' i).2 → callId = pretty (at_ms i)).
Proof.
  intros Hclock. split.
  - eapply sublist_NoDup; [| apply call_ids_run].
    by apply (NoDup_fmap_2 (pretty : Z → string)).
  - intros s' i callId Hin. apply list_elem_of_singleton.
    eapply elem_of_sublist; [exact Hin | apply call_ids_step].
Qed.

Lemma C8_call_ids_distinct_across_milliseconds_witness :
  NoDup (at_ms <$> [mkInput 1700000000000 "alice" (initiate_call 2 "video" 5);
                    mkInput 1700000000001 "carol" (initiate_call 1 "audio" 6)])
  ∧ NoDup (call_ids (emitted Scenario.three_users_state
             [mkInput 1700000000000 "alice" (initiate_call 2 "video" 5);
              mkInput 1700000000001 "carol" (initiate_call 1 "audio" 6)]))
  ∧ (∀ s' i callId, callId ∈ call_ids (step s' i).2 → callId = pretty (at_ms i)).
Proof.
  assert (NoDup (at_ms <$> [mkInput 1700000000000 "alice" (initiate_call 2 "video" 5);
                            mkInput 1700000000001 "carol" (initiate_call 1 "audio" 6)]))
    as Hclock by (apply (bool_decide_unpack _); vm_compute; exact I).
  split; [exact Hclock |].
  exact (C8_call_ids_distinct_across_milliseconds Scenario.three_users_state _ Hclock).
Defined.

(** ** C9: the sender of [incoming_call] *)

Lemma step_incoming_call_sender s i e from ctype conv callId :
  no_identity s →
  e ∈ (step s i).2 →
  payload e = incoming_call from ctype conv callId →
  from = None.
Proof.
  intros Hinv. unfold step.
  destruct (sockets s !! on_socket i) as [sock|] eqn:Hsock, (event i);
    cbn [snd]; unfold_handlers;
    repeat match goal with |- context [match ?x with _ => _ end] => destruct x end;
    cbn [snd];
    try (by intros ?%elem_of_nil);
    intros ->%list_elem_of_singleton; cbn [payload io_to_emit socket_emit
      socket_to_emit socket_broadcast_emit]; try done.
  intros [= <- _ _ _]. by eapply Hinv.
Qed.

Lemma run_incoming_call_sender tr : ∀ s e from ctype conv callId,
  no_identity s →
  e ∈ emitted s tr →
  payload e = incoming_call from ctype conv callId →
  from = None.
Proof.
  unfold emitted. induction tr as [|i tr IH]; intros s e from ctype conv callId Hinv;
    [by intros ?%elem_of_nil |].
  cbn [run].
  pose proof (step_no_identity s i Hinv) as Hnext.
  pose proof (step_incoming_call_sender s i e from ctype conv callId Hinv) as Hnow.
  destruct (step s i) as [s1 out1]. cbn [fst snd] in *.
  specialize (IH s1 e from ctype conv callId Hnext).
  destruct (run s1 tr) as [s2 out2]. cbn [snd] in *.
  intros [Hin|Hin]%elem_of_app; auto.
Qed.

(** C9: no handler assigns [socket.userId], so in every state the server
    reaches, an [initiate_call] on a connected socket to a registered
    callee emits [incoming_call] with [fromUserId] undefined; and every
    [incoming_call] the server ever emits has [fromUserId] undefined. *)
Theorem C9_incoming_call_from_undefined tr t sid toUserId callType conversationId target :
  let s := state_after initial tr in
  is_Some (sockets s !! sid) →
  truthy (JsMap.get (activeUsers s) toUserId) = Some target →
  step s (mkInput t sid (initiate_call toUserId callType conversationId))
  = (s, [mkEmission (room_members s target)
           (incoming_call None callType conversationId (pretty t))])
  ∧ (∀ e from ctype conv callId,
       e ∈ emitted initial tr →
       payload e = incoming_call from ctype conv callId →
       from = None).
Proof.
  intros s [sock Hsock] Htarget. split.
  - unfold step. cbn [on_socket event at_ms]. rewrite Hsock.
    unfold on_initiate_call. rewrite Htarget.
    assert (userId sock = None) as ->; [| done].
    by eapply (run_no_identity tr initial initial_no_identity).
  - intros e from ctype conv callId. apply run_incoming_call_sender.
    apply initial_no_identity.
Qed.

Lemma C9_incoming_call_from_undefined_witness :
  is_Some (sockets (state_after initial Scenario.three_users) !! "alice")
  ∧ truthy (JsMap.get (activeUsers (state_after initial Scenario.three_users)) 2)
    = Some "bob"
  ∧ step (state_after initial Scenario.three_users)
      (mkInput 1000 "alice" (initiate_call 2 "video" 5))
    = (state_after initial Scenario.three_users,
       [mkEmission (room_members (state_after initial Scenario.three_users) "bob")
          (incoming_call None "video" 5 (pretty 1000))])
  ∧ (∀ e from ctype conv callId,
       e ∈ emitted initial Scenario.three_users →
       payload e = incoming_call from ctype conv callId →
       from = None).
Proof.
  assert (is_Some (sockets (state_after initial Scenario.three_users) !! "alice"))
    as Hconn by (vm_compute; by eexists).
  assert (truthy (JsMap.get (activeUsers (state_after initial Scenario.three_users)) 2)
          = Some "bob") as Htarget by (vm_compute; reflexivity).
  split; [exact Hconn |]. split; [exact Htarget |].
  exact (C9_incoming_call_from_undefined Scenario.three_users 1000 "alice" 2
           "video" 5 "bob" Hconn Htarget).
Defined.

(** ** C10: cleanup on disconnect *)

Lemma on_disconnect_removes_at_most_one s sid :
  (length (activeUsers s) ≤ S (length (activeUsers (on_disconnect sid s).1)))%nat
  ∧ (length (on_disconnect sid s).2 ≤ 1)%nat.
Proof.
  unfold on_disconnect. destruct (first_owned _ _) as [uid|]; simpl.
  - split; [apply JsMapFacts.length_delete | lia].
  - lia.
Qed.

Lemma step_disconnect_removes_at_most_one s t sid :
  (length (activeUsers s)
   ≤ S (length (activeUsers (step s (mkInput t sid disconnect)).1)))%nat
  ∧ (length (step s (mkInput t sid disconnect)).2 ≤ 1)%nat.
Proof.
  unfold step. cbn [on_socket event].
  destruct (sockets s !! sid); [| simpl; lia].
  apply (on_disconnect_removes_at_most_one (close sid s)).
Qed.

(** An entry whose socket is gone survives every event that arrives on
    another socket and does not announce the same user again. *)
Lemma step_keeps_dangling s i kept c :
  table_wf s →
  JsMap.get (activeUsers s) kept = Some c →
  sockets s !! c = None →
  on_socket i ≠ c →
  event i ≠ user_online kept →
  JsMap.get (activeUsers (step s i).1) kept = Some c
  ∧ sockets (step s i).1 !! c = None.
Proof.
  intros Hwf Hkept Hgone Hother Hannounce. unfold step.
  destruct (sockets s !! on_socket i) as [sock|] eqn:Hsock, (event i);
    cbn [fst]; unfold_handlers;
    repeat match goal with |- context [match ?x with _ => _ end] => destruct x eqn:? end;
    cbn [fst activeUsers sockets join leave open close set_activeUsers];
    try done.
  - split; [| done]. rewrite JsMapFacts.get_set_ne; [done | congruence].
  - split; [| by rewrite lookup_delete_ne].
    rewrite JsMapFacts.get_delete_ne; [done |]. intros ->.
    match goal with H : first_owned _ _ = Some _ |- _ =>
      apply first_owned_get in H; [| done] end.
    cbn in *. congruence.
  - split; [done |]. by rewrite lookup_delete_ne.
  - split; [done |]. by rewrite lookup_insert_ne.
Qed.

Lemma run_keeps_dangling kept c tr : ∀ s,
  table_wf s →
  JsMap.get (activeUsers s) kept = Some c →
  sockets s !! c = None →
  Forall (λ i, on_socket i ≠ c ∧ event i ≠ user_online kept) tr →
  JsMap.get (activeUsers (state_after s tr)) kept = Some c
  ∧ sockets (state_after s tr) !! c = None.
Proof.
  unfold state_after. induction tr as [|i tr IH]; intros s Hwf Hkept Hgone Htr;
    [done |].
  apply Forall_cons in Htr as [[Hother Hannounce] Htr]. cbn [run].
  pose proof (step_table_wf s i Hwf) as Hwf1.
  destruct (step_keeps_dangling s i kept c Hwf Hkept Hgone Hother Hannounce)
    as [Hkept1 Hgone1].
  destruct (step s i) as [s1 out1]. cbn [fst] in *.
  specialize (IH s1 Hwf1 Hkept1 Hgone1 Htr).
  by destruct (run s1 tr) as [s2 out2].
Qed.

(** C10: a disconnect removes at most one entry of the table and emits at
    most one broadcast. When a connection that held no entry announces two
    distinct users and then disconnects, only the first of its entries in
    iteration order is deleted and broadcast as offline; the other user
    stays registered under the id of the closed socket, and stays so after
    any further inputs that arrive on other sockets and do not announce
    that user again. *)
Theorem C10_disconnect_cleans_one_entry s t1 t2 t3 c u1 u2 :
  table_wf s →
  is_Some (sockets s !! c) →
  (∀ uid, JsMap.get (activeUsers s) uid ≠ Some c) →
  u1 ≠ u2 →
  let announced := state_after s [mkInput t1 c (user_online u1);
                                  mkInput t2 c (user_online u2)] in
  let result := step announced (mkInput t3 c disconnect) in
  (∀ s' t' c',
     (length (activeUsers s')
      ≤ S (length (activeUsers (step s' (mkInput t' c' disconnect)).1)))%nat
     ∧ (length (step s' (mkInput t' c' disconnect)).2 ≤ 1)%nat)
  ∧ ∃ gone kept,
      first_owned (JsMap.entries (activeUsers announced)) c = Some gone
      ∧ (gone = u1 ∧ kept = u2 ∨ gone = u2 ∧ kept = u1)
      ∧ result.2 = [mkEmission (dom (sockets s) ∖ {[c]})
                      (user_status_change gone offline)]
      ∧ JsMap.get (activeUsers result.1) gone = None
      ∧ JsMap.get (activeUsers result.1) kept = Some c
      ∧ sockets result.1 !! c = None
      ∧ (∀ tr, Forall (λ i, on_socket i ≠ c ∧ event i ≠ user_online kept) tr →
               JsMap.get (activeUsers (state_after result.1 tr)) kept = Some c
               ∧ sockets (state_after result.1 tr) !! c = None).
Proof.
  intros Hwf Hconn Hfresh Hne announced result.
  split; [intros s' t' c'; apply step_disconnect_removes_at_most_one |].
  set (m2 := JsMap.set (JsMap.set (activeUsers s) u1 c) u2 c).
  assert (announced = set_activeUsers m2 s) as Hannounced.
  { subst announced. unfold state_after. cbn [run].
    rewrite step_user_online by done. cbn -[JsMap.set].
    rewrite step_user_online by done. done. }
  clearbody announced. subst announced.
  assert (JsMap.wf m2) as Hwf2 by (by do 2 apply JsMapFacts.wf_set).
  assert (JsMap.get m2 u2 = Some c) as Hu2 by apply JsMapFacts.get_set_eq.
  assert (JsMap.get m2 u1 = Some c) as Hu1.
  { subst m2. rewrite JsMapFacts.get_set_ne by done. apply JsMapFacts.get_set_eq. }
  destruct (first_owned_holder m2 c u2 Hu2) as [gone Hgone].
  pose proof (first_owned_get m2 c gone Hwf2 Hgone) as Hgone_get.
  assert (gone = u1 ∨ gone = u2) as Hwhich.
  { destruct (decide (gone = u1)) as [|Hn1]; [by left |].
    destruct (decide (gone = u2)) as [|Hn2]; [by right |].
    exfalso. apply (Hfresh gone). subst m2.
    by rewrite !JsMapFacts.get_set_ne in Hgone_get. }
  set (kept := if decide (gone = u1) then u2 else u1).
  assert (kept ≠ gone ∧ JsMap.get m2 kept = Some c
          ∧ (gone = u1 ∧ kept = u2 ∨ gone = u2 ∧ kept = u1)) as (Hkg & Hkept & Hpair).
  { subst kept. destruct Hwhich as [->| ->].
    - rewrite decide_True by done. auto.
    - rewrite decide_False by done. auto. }
  assert (result = (set_activeUsers (JsMap.delete m2 gone)
                      (close c (set_activeUsers m2 s)),
                    [mkEmission (dom (sockets s) ∖ {[c]})
                       (user_status_change gone offline)])) as Hresult.
  { subst result. rewrite step_disconnect by done.
    unfold on_disconnect.
    cbn [JsMap.entries close activeUsers set_activeUsers]. rewrite Hgone.
    unfold socket_broadcast_emit. cbn [sockets set_activeUsers close].
    do 3 f_equal. rewrite dom_delete_L. set_solver. }
  clearbody result. subst result.
  exists gone, kept. cbn [fst snd activeUsers set_activeUsers sockets close JsMap.entries].
  assert (JsMap.get (JsMap.delete m2 gone) kept = Some c) as Hkept'
    by (by rewrite JsMapFacts.get_delete_ne).
  split; [done |]. split; [done |]. split; [done |].
  split; [by apply JsMapFacts.get_delete_eq |]. split; [done |].
  split; [by rewrite lookup_delete_eq |].
  intros tr Htr. apply run_keeps_dangling; try done.
  - by apply JsMapFacts.wf_delete.
  - cbn. by rewrite lookup_delete_eq.
Qed.

Lemma C10_disconnect_cleans_one_entry_witness :
  table_wf Scenario.shared_device
  ∧ is_Some (sockets Scenario.shared_device !! "kiosk")
  ∧ (∀ uid, JsMap.get (activeUsers Scenario.shared_device) uid ≠ Some "kiosk")
  ∧ 1 ≠ 2
  ∧ (let announced :=
       state_after Scenario.shared_device
         [mkInput 10 "kiosk" (user_online 1); mkInput 20 "kiosk" (user_online 2)] in
     let result := step announced (mkInput 30 "kiosk" disconnect) in
     (∀ s' t' c',
        (length (activeUsers s')
         ≤ S (length (activeUsers (step s' (mkInput t' c' disconnect)).1)))%nat
        ∧ (length (step s' (mkInput t' c' disconnect)).2 ≤ 1)%nat)
     ∧ ∃ gone kept,
         first_owned (JsMap.entries (activeUsers announced)) "kiosk" = Some gone
         ∧ (gone = 1 ∧ kept = 2 ∨ gone = 2 ∧ kept = 1)
         ∧ result.2 = [mkEmission (dom (sockets Scenario.shared_device) ∖ {["kiosk"]})
                         (user_status_change gone offline)]
         ∧ JsMap.get (activeUsers result.1) gone = None
         ∧ JsMap.get (activeUsers result.1) kept = Some "kiosk"
         ∧ sockets result.1 !! "kiosk" = None
         ∧ (∀ tr, Forall (λ i, on_socket i ≠ "kiosk" ∧ event i ≠ user_online kept) tr →
                  JsMap.get (activeUsers (state_after result.1 tr)) kept = Some "kiosk"
                  ∧ sockets (state_after result.1 tr) !! "kiosk" = None)).
Proof.
  assert (table_wf Scenario.shared_device) as Hwf
    by (vm_compute; apply NoDup_nil_2).
  assert (is_Some (sockets Scenario.shared_device !! "kiosk")) as Hconn
    by (vm_compute; by eexists).
  assert (∀ uid, JsMap.get (activeUsers Scenario.shared_device) uid ≠ Some "kiosk")
    as Hfresh by (intros uid; vm_compute; discriminate).
  assert (1 ≠ 2) as Hne by lia.
  split; [exact Hwf |]. split; [exact Hconn |]. split; [exact Hfresh |].
  split; [exact Hne |].
  exact (C10_disconnect_cleans_one_entry Scenario.shared_device 10 20 30 "kiosk" 1 2
           Hwf Hconn Hfresh Hne).
Defined.

(** The run of C10 on the shared device: user 1 is reported offline, user
    2 is left behind under the closed socket. *)
Example shared_device_leaves_second_user :
  let s := state_after Scenario.shared_device
             [mkInput 10 "kiosk" (user_online 1); mkInput 20 "kiosk" (user_online 2);
              mkInput 30 "kiosk" disconnect] in
  activeUsers s = [(2, "kiosk")] ∧ sockets s !! "kiosk" = None.
Proof. by vm_compute. Qed.

(** The run of C2 on two tabs: closing the tab announced last reports the
    user offline while the other tab is still connected. *)
Example two_tabs_offline_with_live_tab :
  let result := step Scenario.two_tabs_state (Scenario.at_socket "tab2" disconnect) in
  result.2 = [mkEmission {["tab1"; "peer"]} (user_status_change 7 offline)]
  ∧ is_Some (sockets result.1 !! "tab1")
  ∧ activeUsers result.1 = [].
Proof. vm_compute. split; [reflexivity |]. split; [by eexists | reflexivity]. Qed.

(** * Further properties of the socket handlers *)

(** ** Runs *)

Lemma run_app s tr1 tr2 :
  run s (tr1 ++ tr2)
  = ((run (run s tr1).1 tr2).1, (run s tr1).2 ++ (run (run s tr1).1 tr2).2).
Proof.
  revert s. induction tr1 as [|i tr1 IH]; intros s.
  - cbn. by destruct (run s tr2).
  - cbn [app run]. destruct (step s i) as [s1 out1]. rewrite IH.
    destruct (run s1 tr1) as [s2 out2]. cbn [fst snd].
    destruct (run s2 tr2) as [s3 out3]. cbn [fst snd]. by rewrite app_assoc.
Qed.

Lemma state_after_snoc s tr i :
  state_after s (tr ++ [i]) = (step (state_after s tr) i).1.
Proof.
  unfold state_after. rewrite run_app. cbn [fst run].
  by destruct (step (run s tr).1 i).
Qed.

(** Induction over the states a run goes through, with the inputs handled
    so far. *)
Lemma run_invariant (P : list Input → Server → Prop) s0 :
  P [] s0 →
  (∀ tr s i, P tr s → P (tr ++ [i]) (step s i).1) →
  ∀ tr, P tr (state_after s0 tr).
Proof.
  intros Hinit Hstep tr. induction tr as [|i tr IH] using rev_ind; [done |].
  rewrite state_after_snoc. by apply Hstep.
Qed.

Lemma plain_ids_snoc tr i :
  plain_ids (tr ++ [i]) = true ↔ plain_ids tr = true ∧ plain_id (on_socket i) = true.
Proof.
  unfold plain_ids. rewrite forallb_app. cbn. rewrite andb_true_r.
  apply andb_true_iff.
Qed.

(** ** Rooms *)

Lemma room_members_join s sid r r' :
  room_members (join sid r s) r'
  = if decide (r = r') then {[sid]} ∪ room_members s r else room_members s r'.
Proof.
  unfold room_members at 1. cbn [join rooms]. case_decide as Heq.
  - subst. by rewrite lookup_insert_eq.
  - by rewrite lookup_insert_ne.
Qed.

Lemma room_members_leave s sid r r' :
  room_members (leave sid r s) r'
  = if decide (r = r') then room_members s r ∖ {[sid]} else room_members s r'.
Proof.
  unfold room_members at 1. cbn [leave rooms]. case_decide as Heq.
  - subst. by rewrite lookup_insert_eq.
  - by rewrite lookup_insert_ne.
Qed.

Lemma room_members_close s sid r :
  room_members (close sid s) r = room_members s r ∖ {[sid]}.
Proof.
  unfold room_members. cbn [close rooms]. rewrite lookup_fmap.
  destruct (rooms s !! r); cbn; [done | set_solver].
Qed.

Lemma room_members_open s sid r :
  room_members (open sid s) r
  = if decide (sid = r) then {[sid]} ∪ room_members s sid else room_members s r.
Proof. unfold open. by rewrite room_members_join. Qed.

Lemma room_members_set_activeUsers m s r :
  room_members (set_activeUsers m s) r = room_members s r.
Proof. done. Qed.

Lemma room_members_on_disconnect sid s r :
  room_members (on_disconnect sid s).1 r = room_members s r.
Proof. unfold on_disconnect. by destruct (first_owned _ _). Qed.

Lemma sockets_on_disconnect sid s :
  sockets (on_disconnect sid s).1 = sockets s.
Proof. unfold on_disconnect. by destruct (first_owned _ _). Qed.

(** What a step does to the rooms and to the set of connected sockets,
    case by case. *)
Lemma step_rooms_sockets s i :
  let s' := (step s i).1 in
  let sid := on_socket i in
  match sockets s !! sid, event i with
  | None, connection =>
      sockets s' = <[sid := mkSocket None]> (sockets s)
      ∧ ∀ r, room_members s' r
             = if decide (sid = r) then {[sid]} ∪ room_members s sid
               else room_members s r
  | Some _, join_conversation c =>
      sockets s' = sockets s
      ∧ ∀ r, room_members s' r
             = if decide (conversation_room c = r)
               then {[sid]} ∪ room_members s (conversation_room c)
               else room_members s r
  | Some _, leave_conversation c =>
      sockets s' = sockets s
      ∧ ∀ r, room_members s' r
             = if decide (conversation_room c = r)
               then room_members s (conversation_room c) ∖ {[sid]}
               else room_members s r
  | Some _, disconnect =>
      sockets s' = base.delete sid (sockets s)
      ∧ ∀ r, room_members s' r = room_members s r ∖ {[sid]}
  | _, _ => sockets s' = sockets s ∧ ∀ r, room_members s' r = room_members s r
  end.
Proof.
  cbn zeta. unfold step.
  destruct (sockets s !! on_socket i) as [sock|], (event i); cbn [fst];
    unfold_handlers;
    repeat match goal with |- context [truthy ?x] => destruct (truthy x) end;
    try (split; [done | intros r; done]).
  - split; [done |]. intros r. apply room_members_join.
  - split; [done |]. intros r. apply room_members_leave.
  - split; [exact (sockets_on_disconnect _ (close _ s)) |]. intros r.
    etrans; [exact (room_members_on_disconnect _ (close _ s) r) |].
    apply room_members_close.
  - split; [done |]. intros r. apply room_members_open.
Qed.

Lemma step_activeUsers s i :
  activeUsers (step s i).1
  = match sockets s !! on_socket i, event i with
    | Some _, user_online uid => JsMap.set (activeUsers s) uid (on_socket i)
    | Some _, disconnect =>
        match first_owned (activeUsers s) (on_socket i) with
        | Some uid => JsMap.delete (activeUsers s) uid
        | None => activeUsers s
        end
    | _, _ => activeUsers s
    end.
Proof.
  unfold step.
  destruct (sockets s !! on_socket i) as [sock|], (event i); cbn [fst];
    unfold_handlers;
    repeat match goal with |- context [truthy ?x] => destruct (truthy x) end;
    try done.
  cbn [JsMap.entries close activeUsers].
  by destruct (first_owned (activeUsers s) (on_socket i)).
Qed.

Ltac step_cases s i Hstep :=
  pose proof (step_rooms_sockets s i) as Hstep; cbn zeta in Hstep;
  destruct (sockets s !! on_socket i) as [?sock|] eqn:?Hsock;
  destruct (event i) eqn:?Hevent;
  destruct Hstep as [?Hsockets ?Hrooms].

Lemma step_rooms_connected s i : rooms_connected s → rooms_connected (step s i).1.
Proof.
  unfold rooms_connected. intros Hinv r m.
  step_cases s i Hstep; rewrite Hrooms, Hsockets; try apply Hinv.
  - case_decide; [| apply Hinv]. intros [->%elem_of_singleton|Hm]%elem_of_union;
      [by eexists | by eapply Hinv].
  - case_decide; [| apply Hinv]. intros [Hm _]%elem_of_difference. by eapply Hinv.
  - intros [Hm Hne%not_elem_of_singleton]%elem_of_difference.
    rewrite lookup_delete_ne by done. by eapply Hinv.
  - assert (∀ m', is_Some (sockets s !! m')
                  → is_Some (<[on_socket i := mkSocket None]> (sockets s) !! m'))
      as Hmono.
    { intros m' Hm'. destruct (decide (on_socket i = m')) as [<-|Hne].
      - rewrite lookup_insert_eq. by eexists.
      - by rewrite lookup_insert_ne. }
    case_decide.
    + intros [->%elem_of_singleton|Hm]%elem_of_union.
      * rewrite lookup_insert_eq. by eexists.
      * apply Hmono. by eapply Hinv.
    + intros Hm. apply Hmono. by eapply Hinv.
Qed.

Lemma initial_room_members r : room_members initial r = ∅.
Proof. unfold room_members. cbn. by rewrite lookup_empty. Qed.

Lemma reachable_rooms_connected tr : rooms_connected (state_after initial tr).
Proof.
  apply (run_invariant (λ _ s, rooms_connected s)).
  - intros r m. rewrite initial_room_members. set_solver.
  - intros _ s i. apply step_rooms_connected.
Qed.

Lemma step_recipients_connected s i e :
  rooms_connected s →
  e ∈ (step s i).2 →
  recipients e ⊆ dom (sockets s).
Proof.
  intros Hinv. unfold step.
  destruct (sockets s !! on_socket i) as [sock|] eqn:Hsock, (event i);
    cbn [snd]; unfold_handlers;
    repeat match goal with |- context [match ?x with _ => _ end] => destruct x end;
    cbn [snd];
    try (by intros ?%elem_of_nil);
    intros ->%list_elem_of_singleton;
    cbn [recipients io_to_emit socket_emit socket_to_emit socket_broadcast_emit
         sockets set_activeUsers close];
    intros m Hm; apply elem_of_dom;
    try (by eapply Hinv);
    try (apply elem_of_difference in Hm as [Hm _];
         first [ by eapply Hinv | by apply elem_of_dom in Hm ]).
  - apply elem_of_singleton in Hm as ->. by eexists.
  - apply elem_of_difference in Hm as [Hm _].
    apply elem_of_dom, lookup_delete_is_Some in Hm. tauto.
Qed.

Lemma emitted_cons s i tr :
  emitted s (i :: tr) = (step s i).2 ++ emitted (step s i).1 tr.
Proof.
  unfold emitted. cbn [run]. destruct (step s i) as [s1 out1]. cbn [fst snd].
  by destruct (run s1 tr).
Qed.

Lemma state_after_cons s i tr :
  state_after s (i :: tr) = state_after (step s i).1 tr.
Proof.
  unfold state_after. cbn [run]. destruct (step s i) as [s1 out1]. cbn [fst snd].
  by destruct (run s1 tr).
Qed.

(** ** Deliveries go to connected sockets *)

(** X1: in every state the server reaches, whatever a handler emits is
    addressed to sockets that are connected at that moment. *)
Theorem X1_emissions_reach_connected_sockets tr i e :
  e ∈ (step (state_after initial tr) i).2 →
  recipients e ⊆ dom (sockets (state_after initial tr)).
Proof. apply step_recipients_connected, reachable_rooms_connected. Qed.

Lemma X1_emissions_reach_connected_sockets_witness :
  mkEmission {["bob"]} (incoming_call None "video" 5 "1000")
    ∈ (step (state_after initial Scenario.three_users)
         (mkInput 1000 "alice" (initiate_call 2 "video" 5))).2
  ∧ recipients (mkEmission {["bob"]} (incoming_call None "video" 5 "1000"))
    ⊆ dom (sockets (state_after initial Scenario.three_users)).
Proof.
  assert (mkEmission {["bob"]} (incoming_call None "video" 5 "1000")
            ∈ (step (state_after initial Scenario.three_users)
                 (mkInput 1000 "alice" (initiate_call 2 "video" 5))).2) as Hin
    by (vm_compute; apply list_elem_of_here).
  split; [exact Hin |].
  exact (X1_emissions_reach_connected_sockets Scenario.three_users _ _ Hin).
Defined.

Lemma step_keeps_closed s i c :
  sockets s !! c = None → on_socket i ≠ c → sockets (step s i).1 !! c = None.
Proof.
  intros Hclosed Hother.
  step_cases s i Hstep; rewrite Hsockets; try done.
  - by rewrite lookup_delete_ne.
  - by rewrite lookup_insert_ne.
Qed.

Lemma run_closed_receives_nothing c tr : ∀ s e,
  rooms_connected s →
  sockets s !! c = None →
  Forall (λ i, on_socket i ≠ c) tr →
  e ∈ emitted s tr →
  c ∉ recipients e.
Proof.
  induction tr as [|i tr IH]; intros s e Hinv Hclosed Htr;
    [by intros ?%elem_of_nil |].
  apply Forall_cons in Htr as [Hother Htr]. rewrite emitted_cons.
  intros [Hnow|Hlater]%elem_of_app.
  - intros Hc. apply (step_recipients_connected s i e Hinv Hnow) in Hc.
    apply elem_of_dom in Hc. rewrite Hclosed in Hc. by destruct Hc.
  - eapply (IH (step s i).1); eauto using step_rooms_connected, step_keeps_closed.
Qed.

(** X2: once a socket has disconnected it is in no room, and nothing the
    server emits from then on reaches it: neither the broadcast of its
    own disconnect nor anything emitted for later inputs on other
    sockets. *)
Theorem X2_closed_socket_receives_nothing tr t c tr' e :
  Forall (λ i, on_socket i ≠ c) tr' →
  e ∈ emitted (state_after initial tr) (mkInput t c disconnect :: tr') →
  (c ∉ recipients e)
  ∧ ∀ r, c ∉ room_members (state_after initial (tr ++ [mkInput t c disconnect])) r.
Proof.
  intros Htr' Hin.
  pose proof (reachable_rooms_connected tr) as Hinv.
  pose proof (reachable_rooms_connected (tr ++ [mkInput t c disconnect])) as Hinv'.
  rewrite state_after_snoc in Hinv'. rewrite state_after_snoc.
  set (s := state_after initial tr) in *.
  assert (sockets (step s (mkInput t c disconnect)).1 !! c = None) as Hclosed.
  { unfold step. cbn [on_socket event].
    destruct (sockets s !! c) as [sock|] eqn:Hsock; [| done].
    rewrite (sockets_on_disconnect c (close c s)). cbn. apply lookup_delete_eq. }
  split.
  - rewrite emitted_cons in Hin. apply elem_of_app in Hin as [Hnow|Hlater].
    + revert Hnow. unfold step. cbn [on_socket event].
      destruct (sockets s !! c) as [sock|]; [| by intros ?%elem_of_nil].
      unfold on_disconnect. destruct (first_owned _ _); cbn [snd];
        [| by intros ?%elem_of_nil].
      intros ->%list_elem_of_singleton. cbn. set_solver.
    + by eapply run_closed_receives_nothing.
  - intros r Hr. apply Hinv' in Hr. rewrite Hclosed in Hr. by destruct Hr.
Qed.

Lemma X2_closed_socket_receives_nothing_witness :
  Forall (λ i, on_socket i ≠ "tab2")
    [mkInput 40 "tab1" (initiate_call 7 "video" 5)]
  ∧ mkEmission {["tab1"; "peer"]} (user_status_change 7 offline)
      ∈ emitted (state_after initial Scenario.two_tabs)
          (mkInput 30 "tab2" disconnect
             :: [mkInput 40 "tab1" (initiate_call 7 "video" 5)])
  ∧ ("tab2" ∉ recipients (mkEmission {["tab1"; "peer"]} (user_status_change 7 offline)))
  ∧ ∀ r, "tab2" ∉ room_members
                    (state_after initial
                       (Scenario.two_tabs ++ [mkInput 30 "tab2" disconnect])) r.
Proof.
  assert (Forall (λ i, on_socket i ≠ "tab2")
            [mkInput 40 "tab1" (initiate_call 7 "video" 5)]) as Hothers
    by (apply Forall_singleton; vm_compute; discriminate).
  assert (mkEmission {["tab1"; "peer"]} (user_status_change 7 offline)
            ∈ emitted (state_after initial Scenario.two_tabs)
                (mkInput 30 "tab2" disconnect
                   :: [mkInput 40 "tab1" (initiate_call 7 "video" 5)])) as Hin
    by (vm_compute; apply list_elem_of_here).
  split; [exact Hothers |]. split; [exact Hin |].
  exact (X2_closed_socket_receives_nothing Scenario.two_tabs 30 "tab2" _ _ Hothers Hin).
Defined.

(** ** Socket ids and room names *)

Lemma plain_not_room sid c : plain_id sid = true → sid ≠ conversation_room c.
Proof.
  intros Hplain ->. unfold plain_id, conversation_room in Hplain.
  cbn in Hplain. by destruct (pretty c).
Qed.

#[global] Instance conversation_room_inj : Inj (=) (=) conversation_room.
Proof.
  intros c1 c2 Heq. unfold conversation_room in Heq.
  apply (inj (String.app "conversation_")) in Heq.
  by apply (inj (pretty : Z → string)) in Heq.
Qed.

Lemma elem_of_JsMap_set (m : list (Z * string)) k0 v0 k v :
  (k, v) ∈ JsMap.set m k0 v0 → (k, v) = (k0, v0) ∨ (k, v) ∈ m.
Proof.
  induction m as [|[k1 v1] m IH]; cbn.
  - intros ->%list_elem_of_singleton. by left.
  - destruct (decide (k1 = k0)); rewrite !elem_of_cons; naive_solver.
Qed.

Lemma elem_of_JsMap_delete (m : list (Z * string)) k0 k v :
  (k, v) ∈ JsMap.delete m k0 → (k, v) ∈ m.
Proof.
  induction m as [|[k1 v1] m IH]; cbn; [done |].
  destruct (decide (k1 = k0)); rewrite !elem_of_cons; naive_solver.
Qed.

Lemma truthy_Some v target : truthy v = Some target → v = Some target ∧ target ≠ "".
Proof.
  destruct v as [t|]; cbn; [| done]. by case_decide; intros [= <-].
Qed.

Lemma is_Some_insert_mono (m : gmap string Socket) k v k' :
  is_Some (m !! k') → is_Some (<[k := v]> m !! k').
Proof.
  intros Hk'. destruct (decide (k = k')) as [<-|Hne].
  - rewrite lookup_insert_eq. by eexists.
  - by rewrite lookup_insert_ne.
Qed.

Lemma step_rooms_named s i : rooms_named s → rooms_named (step s i).1.
Proof.
  unfold rooms_named. intros Hinv r m.
  step_cases s i Hstep; rewrite Hrooms; try apply Hinv.
  - case_decide as Hr; [| apply Hinv].
    intros [->%elem_of_singleton|Hm]%elem_of_union; [right; by eexists |].
    subst r. by apply Hinv.
  - case_decide as Hr; [| apply Hinv]. intros [Hm _]%elem_of_difference.
    subst r. by apply Hinv.
  - intros [Hm _]%elem_of_difference. by apply Hinv.
  - case_decide as Hr; [| apply Hinv].
    intros [->%elem_of_singleton|Hm]%elem_of_union; [by left |].
    subst r. by apply Hinv.
Qed.

Lemma step_own_room s i :
  plain_id (on_socket i) = true → own_room s → own_room (step s i).1.
Proof.
  unfold own_room. intros Hplain Hinv m.
  step_cases s i Hstep; rewrite Hrooms, Hsockets; try apply Hinv.
  - intros Hm. case_decide as Hr; [| by apply Hinv].
    rewrite Hr. apply elem_of_union_r. by apply Hinv.
  - intros Hm. case_decide as Hr; [| by apply Hinv].
    rewrite Hr. apply elem_of_difference. split; [by apply Hinv |].
    intros ->%elem_of_singleton. by eapply plain_not_room.
  - intros [Hne Hm]%lookup_delete_is_Some. apply elem_of_difference.
    split; [by apply Hinv |]. by apply not_elem_of_singleton.
  - intros Hm. case_decide as Hr.
    + subst m. apply elem_of_union_l. by apply elem_of_singleton.
    + apply Hinv. by rewrite lookup_insert_ne in Hm.
Qed.

Lemma step_plain_state s i :
  plain_id (on_socket i) = true → plain_state s → plain_state (step s i).1.
Proof.
  intros Hplain [Hsocks Htable]. split.
  - intros m. step_cases s i Hstep; rewrite Hsockets; try apply Hsocks.
    + intros [_ Hm]%lookup_delete_is_Some. by apply Hsocks.
    + destruct (decide (on_socket i = m)) as [<-|Hne]; [done |].
      rewrite lookup_insert_ne by done. apply Hsocks.
  - intros uid m. rewrite step_activeUsers.
    destruct (sockets s !! on_socket i) as [sock|], (event i); try apply Htable.
    + intros [[= -> ->]|Hin]%elem_of_JsMap_set; [done | by eapply Htable].
    + destruct (first_owned _ _); [| apply Htable].
      intros Hin%elem_of_JsMap_delete. by eapply Htable.
Qed.

Lemma reachable_tidy tr : plain_ids tr = true → tidy (state_after initial tr).
Proof.
  apply (run_invariant (λ tr s, plain_ids tr = true → tidy s)).
  - intros _. repeat split.
    + intros r m. rewrite initial_room_members. set_solver.
    + intros r m. rewrite initial_room_members. set_solver.
    + intros m [sock Hm]. cbn in Hm. by apply lookup_empty_Some in Hm.
    + intros m [sock Hm]. cbn in Hm. by apply lookup_empty_Some in Hm.
    + intros uid m Hin. cbn in Hin. by apply elem_of_nil in Hin.
  - intros tr0 s i IH [Htr Hi]%plain_ids_snoc.
    destruct (IH Htr) as (Hconn & Hnamed & Hown & Hplain).
    repeat split.
    + by apply step_rooms_connected.
    + by apply step_rooms_named.
    + by apply step_own_room.
    + by apply step_plain_state.
    + by apply step_plain_state.
Qed.

(** In a tidy state the room named by a plain socket id holds that socket
    when it is connected, and nobody otherwise. *)
Lemma tidy_target_room s target :
  tidy s →
  plain_id target = true →
  room_members s target
  = if decide (is_Some (sockets s !! target)) then {[target]} else ∅.
Proof.
  intros (Hconn & Hnamed & Hown & _) Hplain.
  assert (∀ m, m ∈ room_members s target → m = target) as Honly.
  { intros m Hm. destruct (Hnamed _ _ Hm) as [->|[c ->]]; [done |].
    by destruct (plain_not_room _ c Hplain). }
  apply set_eq. intros m. case_decide as Htarget.
  - rewrite elem_of_singleton. split; [apply Honly |].
    intros ->. by apply Hown.
  - split; [| set_solver]. intros Hm. destruct Htarget.
    rewrite <- (Honly m Hm). by eapply Hconn.
Qed.

(** ** Call signalling is point to point *)

Lemma step_signal_target s i e :
  e ∈ (step s i).2 →
  is_signal (payload e) = true →
  ∃ uid target,
    JsMap.get (activeUsers s) uid = Some target
    ∧ target ≠ ""
    ∧ recipients e = room_members s target.
Proof.
  unfold step.
  destruct (sockets s !! on_socket i) as [sock|] eqn:Hsock, (event i);
    cbn [snd]; unfold_handlers;
    repeat match goal with
           | |- context [truthy ?x] => destruct (truthy x) eqn:?Htarget
           | |- context [first_owned ?x ?y] => destruct (first_owned x y)
           end;
    cbn [snd];
    try (by intros ?%elem_of_nil);
    intros ->%list_elem_of_singleton; cbn; try done;
    intros _; apply truthy_Some in Htarget as [Hget Hne]; eauto.
Qed.

(** X3: in a run from the initial state whose socket ids are plain, every
    [incoming_call], [call_accepted], [call_rejected] and [call_ended] is
    addressed to the socket registered for some user in [activeUsers]: it
    reaches exactly that socket when it is connected, and nobody when it
    has closed. *)
Theorem X3_signals_reach_registered_socket_only tr i e :
  plain_ids tr = true →
  e ∈ (step (state_after initial tr) i).2 →
  is_signal (payload e) = true →
  ∃ uid target,
    JsMap.get (activeUsers (state_after initial tr)) uid = Some target
    ∧ recipients e
      = if decide (is_Some (sockets (state_after initial tr) !! target))
        then {[target]} else ∅.
Proof.
  intros Hplain Hin Hsignal.
  pose proof (reachable_tidy tr Hplain) as Htidy.
  destruct (step_signal_target _ _ _ Hin Hsignal) as (uid & target & Hget & _ & ->).
  exists uid, target. split; [done |].
  apply tidy_target_room; [done |].
  destruct Htidy as (_ & _ & _ & _ & Htable). eapply Htable.
  by apply JsMapFacts.get_Some_elem.
Qed.

Lemma X3_signals_reach_registered_socket_only_witness :
  plain_ids Scenario.call_setup = true
  ∧ mkEmission {["alice"]} (call_accepted "1000")
      ∈ (step (state_after initial Scenario.call_setup)
           (mkInput 1001 "bob" (accept_call "1000" 1))).2
  ∧ is_signal (payload (mkEmission {["alice"]} (call_accepted "1000"))) = true
  ∧ ∃ uid target,
      JsMap.get (activeUsers (state_after initial Scenario.call_setup)) uid
      = Some target
      ∧ recipients (mkEmission {["alice"]} (call_accepted "1000"))
        = if decide (is_Some (sockets (state_after initial Scenario.call_setup)
                                !! target))
          then {[target]} else ∅.
Proof.
  assert (plain_ids Scenario.call_setup = true) as Hplain by reflexivity.
  assert (mkEmission {["alice"]} (call_accepted "1000")
            ∈ (step (state_after initial Scenario.call_setup)
                 (mkInput 1001 "bob" (accept_call "1000" 1))).2) as Hin
    by (vm_compute; apply list_elem_of_here).
  split; [exact Hplain |]. split; [exact Hin |]. split; [reflexivity |].
  exact (X3_signals_reach_registered_socket_only Scenario.call_setup _ _
           Hplain Hin eq_refl).
Defined.

(** X4: a call to a user whose registered socket has closed is lost
    without notice. [initiate_call] emits one [incoming_call] that reaches
    nobody, and the caller is sent no [call_failed]. *)
Theorem X4_call_to_closed_socket_is_lost tr t sid toUserId callType conversationId target :
  let s := state_after initial tr in
  plain_ids tr = true →
  is_Some (sockets s !! sid) →
  truthy (JsMap.get (activeUsers s) toUserId) = Some target →
  sockets s !! target = None →
  step s (mkInput t sid (initiate_call toUserId callType conversationId))
  = (s, [mkEmission ∅ (incoming_call None callType conversationId (pretty t))]).
Proof.
  intros s Hplain [sock Hsock] Htarget Hclosed. subst s.
  set (s := state_after initial tr) in *.
  assert (userId sock = None) as Hnobody
    by (by eapply (run_no_identity tr initial initial_no_identity)).
  unfold step. cbn [on_socket event at_ms]. rewrite Hsock.
  unfold on_initiate_call. rewrite Htarget, Hnobody.
  apply truthy_Some in Htarget as [Hget _].
  pose proof (reachable_tidy tr Hplain) as Htidy. fold s in Htidy.
  unfold io_to_emit. rewrite (tidy_target_room s target Htidy).
  - by rewrite Hclosed, decide_False by (by intros [? ?]).
  - destruct Htidy as (_ & _ & _ & _ & Htable). eapply Htable.
    by apply JsMapFacts.get_Some_elem.
Qed.

Lemma X4_call_to_closed_socket_is_lost_witness :
  plain_ids Runs.kiosk_left = true
  ∧ is_Some (sockets (state_after initial Runs.kiosk_left) !! "peer")
  ∧ truthy (JsMap.get (activeUsers (state_after initial Runs.kiosk_left)) 2)
    = Some "kiosk"
  ∧ sockets (state_after initial Runs.kiosk_left) !! "kiosk" = None
  ∧ step (state_after initial Runs.kiosk_left)
      (mkInput 40 "peer" (initiate_call 2 "video" 5))
    = (state_after initial Runs.kiosk_left,
       [mkEmission ∅ (incoming_call None "video" 5 (pretty 40))]).
Proof.
  assert (plain_ids Runs.kiosk_left = true) as Hplain by reflexivity.
  assert (is_Some (sockets (state_after initial Runs.kiosk_left) !! "peer"))
    as Hconn by (vm_compute; by eexists).
  assert (truthy (JsMap.get (activeUsers (state_after initial Runs.kiosk_left)) 2)
          = Some "kiosk") as Htarget by (vm_compute; reflexivity).
  assert (sockets (state_after initial Runs.kiosk_left) !! "kiosk" = None)
    as Hclosed by (vm_compute; reflexivity).
  split; [exact Hplain |]. split; [exact Hconn |]. split; [exact Htarget |].
  split; [exact Hclosed |].
  exact (X4_call_to_closed_socket_is_lost Runs.kiosk_left 40 "peer" 2 "video" 5
           "kiosk" Hplain Hconn Htarget Hclosed).
Defined.

(** ** Conversation rooms *)

(** Along a run with plain socket ids, whoever is in the room of
    conversation [c] has sent [join_conversation c]. *)
Lemma reachable_members_joined tr :
  plain_ids tr = true →
  ∀ c m, m ∈ room_members (state_after initial tr) (conversation_room c) →
         ∃ j, j ∈ tr ∧ on_socket j = m ∧ event j = join_conversation c.
Proof.
  apply (run_invariant (λ tr s, plain_ids tr = true →
           ∀ c m, m ∈ room_members s (conversation_room c) →
                  ∃ j, j ∈ tr ∧ on_socket j = m ∧ event j = join_conversation c)).
  - intros _ c m. rewrite initial_room_members. set_solver.
  - intros tr0 s i IH [Htr Hi]%plain_ids_snoc c m. specialize (IH Htr c m).
    assert (m ∈ room_members s (conversation_room c) →
            ∃ j, j ∈ tr0 ++ [i] ∧ on_socket j = m ∧ event j = join_conversation c)
      as Hold.
    { intros (j & Hj & Hrest)%IH. exists j. split; [| done].
      apply elem_of_app. by left. }
    step_cases s i Hstep; rewrite Hrooms; try apply Hold.
    + case_decide as Hr; [| apply Hold].
      apply (inj conversation_room) in Hr as ->.
      intros [->%elem_of_singleton|Hm]%elem_of_union; [| by apply Hold].
      exists i. split; [| done]. apply elem_of_app. right. apply list_elem_of_here.
    + case_decide as Hr; [| apply Hold].
      apply (inj conversation_room) in Hr as ->.
      intros [Hm _]%elem_of_difference. by apply Hold.
    + intros [Hm _]%elem_of_difference. by apply Hold.
    + case_decide as Hr; [| apply Hold]. by destruct (plain_not_room _ c Hi).
Qed.

(** X5: in a run from the initial state whose socket ids are plain, a
    relayed [new_message], [user_typing] or [user_stop_typing] of
    conversation [c] reaches only sockets, other than the sender, that
    have sent [join_conversation c] before. *)
Theorem X5_room_events_reach_joined_sockets_only tr i c relayed e d :
  plain_ids tr = true →
  room_scoped (event i) = Some (c, relayed) →
  e ∈ (step (state_after initial tr) i).2 →
  d ∈ recipients e →
  d ≠ on_socket i
  ∧ ∃ j, j ∈ tr ∧ on_socket j = d ∧ event j = join_conversation c.
Proof.
  intros Hplain Hscoped Hin Hd.
  assert (d ∈ room_members (state_after initial tr) (conversation_room c)
            ∖ {[on_socket i]}) as [Hmember Hother]%elem_of_difference.
  { revert Hin Hd. unfold step.
    destruct (sockets (state_after initial tr) !! on_socket i) as [sock|];
      destruct (event i); cbn in Hscoped; try done;
      injection Hscoped as <- <-; cbn [snd];
      try (by intros ?%elem_of_nil);
      by intros ->%list_elem_of_singleton. }
  split; [by apply not_elem_of_singleton in Hother |].
  by apply reachable_members_joined.
Qed.

Lemma X5_room_events_reach_joined_sockets_only_witness :
  plain_ids Runs.two_conversations = true
  ∧ room_scoped (send_message Scenario.hello) = Some (5, new_message Scenario.hello)
  ∧ mkEmission {["bob"]} (new_message Scenario.hello)
      ∈ (step (state_after initial Runs.two_conversations)
           (mkInput 50 "alice" (send_message Scenario.hello))).2
  ∧ "bob" ∈ recipients (mkEmission {["bob"]} (new_message Scenario.hello))
  ∧ "bob" ≠ "alice"
  ∧ ∃ j, j ∈ Runs.two_conversations
         ∧ on_socket j = "bob" ∧ event j = join_conversation 5.
Proof.
  assert (plain_ids Runs.two_conversations = true) as Hplain by reflexivity.
  assert (mkEmission {["bob"]} (new_message Scenario.hello)
            ∈ (step (state_after initial Runs.two_conversations)
                 (mkInput 50 "alice" (send_message Scenario.hello))).2) as Hin
    by (vm_compute; apply list_elem_of_here).
  assert ("bob" ∈ recipients (mkEmission {["bob"]} (new_message Scenario.hello)))
    as Hbob by (cbn [recipients]; by apply elem_of_singleton).
  split; [exact Hplain |]. split; [reflexivity |]. split; [exact Hin |].
  split; [exact Hbob |].
  exact (X5_room_events_reach_joined_sockets_only Runs.two_conversations
           (mkInput 50 "alice" (send_message Scenario.hello)) 5
           (new_message Scenario.hello) _ "bob" Hplain eq_refl Hin Hbob).
Defined.

(** ** Presence *)

(** Every entry of the table comes from a [user_online] handled on the
    socket it names. *)
Lemma reachable_entries_announced tr :
  ∀ uid c, (uid, c) ∈ activeUsers (state_after initial tr) →
           ∃ j, j ∈ tr ∧ on_socket j = c ∧ event j = user_online uid.
Proof.
  apply (run_invariant (λ tr s,
           ∀ uid c, (uid, c) ∈ activeUsers s →
                    ∃ j, j ∈ tr ∧ on_socket j = c ∧ event j = user_online uid)).
  - intros uid c Hin. cbn in Hin. by apply elem_of_nil in Hin.
  - intros tr0 s i IH uid c. specialize (IH uid c).
    assert ((uid, c) ∈ activeUsers s →
            ∃ j, j ∈ tr0 ++ [i] ∧ on_socket j = c ∧ event j = user_online uid)
      as Hold.
    { intros (j & Hj & Hrest)%IH. exists j. split; [| done].
      apply elem_of_app. by left. }
    rewrite step_activeUsers.
    destruct (sockets s !! on_socket i) as [sock|], (event i) eqn:Hevent;
      try apply Hold.
    + intros [[= -> ->]|Hin]%elem_of_JsMap_set; [| by apply Hold].
      exists i. split; [| done]. apply elem_of_app. right. apply list_elem_of_here.
    + destruct (first_owned _ _); [| apply Hold].
      intros Hin%elem_of_JsMap_delete. by apply Hold.
Qed.

(** X6: in a run from the initial state, an "offline" broadcast for a
    user is emitted only by the [disconnect] of a socket on which that
    user was announced with [user_online] earlier in the run. *)
Theorem X6_offline_only_after_announcement tr i e uid :
  e ∈ (step (state_after initial tr) i).2 →
  payload e = user_status_change uid offline →
  event i = disconnect
  ∧ ∃ j, j ∈ tr ∧ on_socket j = on_socket i ∧ event j = user_online uid.
Proof.
  pose proof (reachable_entries_announced tr) as Hannounced.
  set (s := state_after initial tr) in *. unfold step.
  destruct (sockets s !! on_socket i) as [sock|] eqn:Hsock, (event i);
    cbn [snd]; unfold_handlers;
    repeat match goal with
           | |- context [truthy ?x] => destruct (truthy x)
           end;
    cbn [snd];
    try (by intros ?%elem_of_nil);
    try (by intros ->%list_elem_of_singleton).
  cbn [JsMap.entries close activeUsers].
  destruct (first_owned (activeUsers s) (on_socket i)) as [u'|] eqn:Hfirst;
    cbn [snd]; [| by intros ?%elem_of_nil].
  intros ->%list_elem_of_singleton [= <-]. split; [done |].
  by apply Hannounced, first_owned_elem.
Qed.

Lemma X6_offline_only_after_announcement_witness :
  mkEmission {["tab1"; "peer"]} (user_status_change 7 offline)
    ∈ (step (state_after initial Scenario.two_tabs)
         (mkInput 30 "tab2" disconnect)).2
  ∧ payload (mkEmission {["tab1"; "peer"]} (user_status_change 7 offline))
    = user_status_change 7 offline
  ∧ event (mkInput 30 "tab2" disconnect) = disconnect
  ∧ ∃ j, j ∈ Scenario.two_tabs
         ∧ on_socket j = on_socket (mkInput 30 "tab2" disconnect)
         ∧ event j = user_online 7.
Proof.
  assert (mkEmission {["tab1"; "peer"]} (user_status_change 7 offline)
            ∈ (step (state_after initial Scenario.two_tabs)
                 (mkInput 30 "tab2" disconnect)).2) as Hin
    by (vm_compute; apply list_elem_of_here).
  split; [exact Hin |]. split; [reflexivity |].
  exact (X6_offline_only_after_announcement Scenario.two_tabs _ _ 7 Hin eq_refl).
Defined.

(** X7: a user announced on a socket that holds no other entry becomes
    unreachable when that socket disconnects: the entry is gone, and a
    later [initiate_call] to the user from another connected socket is
    answered with [call_failed] to the caller. *)
Theorem X7_announce_then_disconnect_unregisters s t1 t2 t3 c d uid callType conversationId :
  table_wf s →
  is_Some (sockets s !! c) →
  is_Some (sockets s !! d) →
  d ≠ c →
  (∀ u', JsMap.get (activeUsers s) u' = Some c → u' = uid) →
  let s' := state_after s [mkInput t1 c (user_online uid); mkInput t2 c disconnect] in
  resolve s' uid = ∅
  ∧ step s' (mkInput t3 d (initiate_call uid callType conversationId))
    = (s', [mkEmission {[d]} (call_failed "User offline")]).
Proof.
  intros Hwf Hc [sockd Hd] Hne Honly s'.
  assert (JsMap.get (activeUsers s') uid = None ∧ sockets s' !! d = Some sockd)
    as [Hgone Hd'].
  { subst s'. rewrite state_after_cons, step_user_online by done.
    rewrite state_after_cons. cbn [state_after run fst on_user_online].
    rewrite step_disconnect by done. unfold on_disconnect.
    cbn [JsMap.entries close activeUsers set_activeUsers].
    destruct (first_owned_holder (JsMap.set (activeUsers s) uid c) c uid)
      as [u' Hfirst]; [by rewrite JsMapFacts.get_set_eq |].
    rewrite Hfirst.
    destruct (first_owned_after_set _ _ _ _ Hwf Hfirst) as [->|[Hu' Hget]];
      [| by destruct Hu'; apply Honly].
    cbn [fst activeUsers sockets set_activeUsers]. split.
    - apply JsMapFacts.get_delete_eq. by apply JsMapFacts.wf_set.
    - cbn. by rewrite lookup_delete_ne. }
  split; [by apply resolve_empty |].
  unfold step. cbn [on_socket event at_ms]. rewrite Hd'.
  unfold on_initiate_call. by rewrite Hgone.
Qed.

Lemma X7_announce_then_disconnect_unregisters_witness :
  table_wf Scenario.three_sockets
  ∧ is_Some (sockets Scenario.three_sockets !! "tab1")
  ∧ is_Some (sockets Scenario.three_sockets !! "peer")
  ∧ "peer" ≠ "tab1"
  ∧ (∀ u', JsMap.get (activeUsers Scenario.three_sockets) u' = Some "tab1" → u' = 7)
  ∧ (let s' := state_after Scenario.three_sockets
                 [mkInput 1 "tab1" (user_online 7); mkInput 2 "tab1" disconnect] in
     resolve s' 7 = ∅
     ∧ step s' (mkInput 3 "peer" (initiate_call 7 "audio" 5))
       = (s', [mkEmission {["peer"]} (call_failed "User offline")])).
Proof.
  assert (table_wf Scenario.three_sockets) as Hwf
    by (vm_compute; apply NoDup_nil_2).
  assert (is_Some (sockets Scenario.three_sockets !! "tab1")) as Hc
    by (vm_compute; by eexists).
  assert (is_Some (sockets Scenario.three_sockets !! "peer")) as Hd
    by (vm_compute; by eexists).
  assert ("peer" ≠ "tab1") as Hne by discriminate.
  assert (∀ u', JsMap.get (activeUsers Scenario.three_sockets) u' = Some "tab1"
                → u' = 7) as Honly by (intros u'; vm_compute; discriminate).
  split; [exact Hwf |]. split; [exact Hc |]. split; [exact Hd |].
  split; [exact Hne |]. split; [exact Honly |].
  exact (X7_announce_then_disconnect_unregisters Scenario.three_sockets 1 2 3
           "tab1" "peer" 7 "audio" 5 Hwf Hc Hd Hne Honly).
Defined.

(** ** Joining and leaving *)

Lemma join_join sid r s : join sid r (join sid r s) = join sid r s.
Proof.
  unfold join at 1 3. cbn [activeUsers sockets message_store]. f_equal.
  rewrite room_members_join, decide_True by done. cbn [rooms join].
  rewrite insert_insert_eq. f_equal. set_solver.
Qed.

Lemma step_join s t sid c :
  is_Some (sockets s !! sid) →
  step s (mkInput t sid (join_conversation c))
  = (join sid (conversation_room c) s, []).
Proof. intros [sock Hsock]. unfold step. cbn [on_socket event]. by rewrite Hsock. Qed.

Lemma step_leave s t sid c :
  is_Some (sockets s !! sid) →
  step s (mkInput t sid (leave_conversation c))
  = (leave sid (conversation_room c) s, []).
Proof. intros [sock Hsock]. unfold step. cbn [on_socket event]. by rewrite Hsock. Qed.

(** X8: subscriptions are a set. On a connected socket a second
    [join_conversation] for the same conversation changes nothing, one
    [leave_conversation] after two joins leaves the socket unsubscribed,
    and a [leave_conversation] by a socket that is not subscribed changes
    no room's members. *)
Theorem X8_join_twice_leave_once s t1 t2 t3 sid c :
  is_Some (sockets s !! sid) →
  state_after s [mkInput t1 sid (join_conversation c);
                 mkInput t2 sid (join_conversation c)]
  = state_after s [mkInput t1 sid (join_conversation c)]
  ∧ (sid ∉ room_members
             (state_after s [mkInput t1 sid (join_conversation c);
                             mkInput t2 sid (join_conversation c);
                             mkInput t3 sid (leave_conversation c)])
             (conversation_room c))
  ∧ (sid ∉ room_members s (conversation_room c) →
     ∀ r, room_members (step s (mkInput t3 sid (leave_conversation c))).1 r
          = room_members s r).
Proof.
  intros Hconn.
  assert (∀ t, state_after s [mkInput t sid (join_conversation c)]
               = join sid (conversation_room c) s) as Hone.
  { intros t. rewrite state_after_cons, step_join by done. done. }
  assert (state_after s [mkInput t1 sid (join_conversation c);
                         mkInput t2 sid (join_conversation c)]
          = join sid (conversation_room c) s) as Htwo.
  { rewrite state_after_cons, step_join by done. cbn [fst].
    rewrite state_after_cons, step_join by done. apply join_join. }
  split; [by rewrite Htwo, Hone |]. split.
  - rewrite state_after_cons, step_join by done. cbn [fst].
    rewrite state_after_cons, step_join by done. cbn [fst].
    rewrite join_join, state_after_cons, step_leave by done.
    cbn [fst state_after run]. rewrite room_members_leave, decide_True by done.
    set_solver.
  - intros Hout r. rewrite step_leave by done. cbn [fst].
    rewrite room_members_leave. case_decide as Hr; [| done]. subst r. set_solver.
Qed.

Lemma X8_join_twice_leave_once_witness :
  is_Some (sockets Scenario.three_sockets !! "tab1")
  ∧ state_after Scenario.three_sockets
      [mkInput 1 "tab1" (join_conversation 5); mkInput 2 "tab1" (join_conversation 5)]
    = state_after Scenario.three_sockets [mkInput 1 "tab1" (join_conversation 5)]
  ∧ ("tab1" ∉ room_members
                (state_after Scenario.three_sockets
                   [mkInput 1 "tab1" (join_conversation 5);
                    mkInput 2 "tab1" (join_conversation 5);
                    mkInput 3 "tab1" (leave_conversation 5)])
                (conversation_room 5))
  ∧ ("tab1" ∉ room_members Scenario.three_sockets (conversation_room 5) →
     ∀ r, room_members
            (step Scenario.three_sockets (mkInput 3 "tab1" (leave_conversation 5))).1 r
          = room_members Scenario.three_sockets r).
Proof.
  assert (is_Some (sockets Scenario.three_sockets !! "tab1")) as Hconn
    by (vm_compute; by eexists).
  split; [exact Hconn |].
  exact (X8_join_twice_leave_once Scenario.three_sockets 1 2 3 "tab1" 5 Hconn).
Defined.

(** * Properties of the friend-request routes *)

Module FriendshipFacts.

Import Friendships.

Lemma select_pair_elem user1 user2 t f :
  f ∈ select_pair user1 user2 t ↔ (user_id1 f = user1 ∧ user_id2 f = user2) ∧ f ∈ t.
Proof. unfold select_pair. by rewrite list_elem_of_filter. Qed.

Lemma pair_of_linked a b f :
  a ≠ b →
  user_id1 f < user_id2 f →
  (user_id1 f = a ∧ user_id2 f = b) ∨ (user_id1 f = b ∧ user_id2 f = a) ↔
  user_id1 f = Z.min a b ∧ user_id2 f = Z.max a b.
Proof. lia. Qed.

(** The lookup by (min, max) finds a row exactly when the two users are
    linked in either order. *)
Lemma select_pair_nil_unlinked me to t :
  Forall (λ f, user_id1 f < user_id2 f) t →
  to ≠ me →
  select_pair (Z.min me to) (Z.max me to) t = [] ↔ ¬ linked me to t.
Proof.
  intros Hordered Hne. rewrite Forall_forall in Hordered. split.
  - intros Hnil (f & Hf & Hlink).
    apply (pair_of_linked me to f) in Hlink; [| done | by apply Hordered].
    assert (f ∈ select_pair (Z.min me to) (Z.max me to) t) as Hin
      by (by apply select_pair_elem).
    rewrite Hnil in Hin. by apply elem_of_nil in Hin.
  - intros Hunlinked.
    destruct (select_pair (Z.min me to) (Z.max me to) t) as [|f rest] eqn:Hsel;
      [done |].
    destruct Hunlinked. exists f.
    assert (f ∈ select_pair (Z.min me to) (Z.max me to) t) as [Hpair Hf]%select_pair_elem
      by (rewrite Hsel; apply list_elem_of_here).
    split; [done |]. lia.
Qed.

Lemma insert_allowed_spec refs row t :
  insert_allowed refs row t = true ↔
  (user_id1 row < user_id2 row
   ∧ (∀ f, f ∈ t → ¬ (user_id1 f = user_id1 row ∧ user_id2 f = user_id2 row))
   ∧ (∀ f, f ∈ t → id f ≠ id row))
  ∧ (int_column (id row) = true
     ∧ accepts refs (user_id1 row) = true ∧ accepts refs (user_id2 row) = true
     ∧ accepts refs (action_user_id row) = true).
Proof.
  unfold insert_allowed. rewrite !andb_true_iff, bool_decide_eq_true.
  rewrite <- !Is_true_true, !forallb_True, !Forall_forall.
  assert (∀ P `{Decision P}, negb (bool_decide P) ↔ ¬ P) as Hneg.
  { intros P ?. rewrite negb_True, bool_decide_spec. done. }
  split.
  - intros [[[H1 H2] H3] [[[R0 R1] R2] R3]]. split; [| done].
    split; [done |]. split; intros f Hf.
    + by apply (Hneg _ _), H2.
    + by apply (Hneg _ _), H3.
  - intros [(H1 & H2 & H3) (R0 & R1 & R2 & R3)]. split; [| done].
    split; [split; [done |] |]; intros f Hf.
    + by apply (Hneg _ _), H2.
    + by apply (Hneg _ _), H3.
Qed.

Lemma valid_insert refs row t :
  valid t → insert_allowed refs row t = true → valid (t ++ [row]).
Proof.
  intros (Hordered & Hpairs & Hids)
    [(Hcheck & Hunique & Hprimary) _]%insert_allowed_spec.
  repeat split.
  - apply Forall_app. split; [done |]. by apply Forall_singleton.
  - rewrite fmap_app. apply NoDup_app. repeat split; [done | | apply NoDup_singleton].
    intros p (f & -> & Hf)%list_elem_of_fmap [= H1 H2]%list_elem_of_singleton.
    by apply (Hunique f Hf).
  - rewrite fmap_app. apply NoDup_app. repeat split; [done | | apply NoDup_singleton].
    intros n (f & -> & Hf)%list_elem_of_fmap Heq%list_elem_of_singleton.
    by apply (Hprimary f Hf).
Qed.

Lemma valid_delete rid t : valid t → valid (delete_by_id rid t).
Proof.
  intros (Hordered & Hpairs & Hids). unfold delete_by_id. repeat split.
  - rewrite Forall_forall in *. intros f [_ Hf]%list_elem_of_filter. by apply Hordered.
  - eapply sublist_NoDup; [exact Hpairs |]. apply fmap_sublist, sublist_filter.
  - eapply sublist_NoDup; [exact Hids |]. apply fmap_sublist, sublist_filter.
Qed.

Lemma delete_fresh rid t : rid ∉ id <$> t → delete_by_id rid t = t.
Proof.
  intros Hfresh. unfold delete_by_id. induction t as [|f t IH]; [done |].
  rewrite fmap_cons, not_elem_of_cons in Hfresh. destruct Hfresh as [Hne Hfresh].
  rewrite filter_cons_True by done. by rewrite IH.
Qed.

Lemma delete_appended row t :
  id row ∉ id <$> t → delete_by_id (id row) (t ++ [row]) = t.
Proof.
  intros Hfresh. unfold delete_by_id. rewrite filter_app.
  fold (delete_by_id (id row) t). rewrite delete_fresh by done.
  rewrite filter_cons_False by (by intros ?). by rewrite filter_nil, app_nil_r.
Qed.


(** What [send_request] does once the body field has passed the two
    checks: the lookup decides. *)
Lemma send_request_checked refs now new_id me to t :
  to ≠ 0 → to ≠ me →
  send_request refs now new_id me (Some to) t
  = match select_pair (Z.min me to) (Z.max me to) t with
    | friendship :: _ =>
        match status friendship with
        | pending => (t, mkReply 400 false "Friend request already pending")
        | accepted => (t, mkReply 400 false "Already friends with this user")
        | blocked => (t, mkReply 400 false "Cannot send request to blocked user")
        end
    | [] =>
        if insert_allowed refs
             (mkFriendship new_id (Z.min me to) (Z.max me to) pending me now now) t
        then (t ++ [mkFriendship new_id (Z.min me to) (Z.max me to) pending me now now],
              mkReply 201 true "Friend request sent successfully")
        else (t, mkReply 500 false "Internal server error")
    end.
Proof.
  intros Hzero Hself. unfold send_request. cbn [falsy].
  rewrite bool_decide_eq_false_2, decide_False by done. cbn zeta.
  destruct (select_pair _ _ t); [| done]. unfold insert.
  by destruct (insert_allowed _ _ _).
Qed.

(** What [send_request] does when the two users are linked already. *)
Lemma send_request_refused refs now new_id me to t :
  valid t →
  to ≠ 0 → to ≠ me →
  linked me to t →
  ∃ f msg,
    f ∈ t ∧ user_id1 f = Z.min me to ∧ user_id2 f = Z.max me to
    ∧ send_request refs now new_id me (Some to) t = (t, mkReply 400 false msg)
    ∧ (status f = pending → msg = "Friend request already pending").
Proof.
  intros Hvalid Hzero Hself Hlinked. rewrite send_request_checked by done.
  destruct (select_pair (Z.min me to) (Z.max me to) t) as [|f rest] eqn:Hsel.
  { apply select_pair_nil_unlinked in Hsel; [done | apply Hvalid | done]. }
  assert (f ∈ select_pair (Z.min me to) (Z.max me to) t) as [[H1 H2] Hf]%select_pair_elem
    by (rewrite Hsel; apply list_elem_of_here).
  destruct (status f) eqn:Hstatus; eexists f, _;
    (split; [done |]); (split; [done |]); (split; [done |]);
    (split; [reflexivity |]); intros; congruence.
Qed.



(** An addressee whose id does not fit the [INT] column: the lookup finds
    nothing, the INSERT fails, and the route answers 500. *)
Example send_request_out_of_range :
  send_request no_foreign_keys 200 2 9 (Some 3000000000) sample_table
  = (sample_table, mkReply 500 false "Internal server error").
Proof. by vm_compute. Qed.

(** When the route answers 201. *)
Lemma send_request_201 refs now new_id a b t :
  valid t →
  new_id ∉ id <$> t →
  code (send_request refs now new_id a (Some b) t).2 = 201 →
  b ≠ 0 ∧ b ≠ a ∧ ¬ linked a b t
  ∧ (send_request refs now new_id a (Some b) t).1
    = t ++ [mkFriendship new_id (Z.min a b) (Z.max a b) pending a now now]
  ∧ valid (send_request refs now new_id a (Some b) t).1.
Proof.
  intros Hvalid Hfresh.
  destruct (decide (b = 0)) as [->|Hzero]; [by unfold send_request; cbn |].
  destruct (decide (b = a)) as [->|Hself].
  { unfold send_request. cbn [falsy].
    by rewrite bool_decide_eq_false_2, decide_True by done. }
  destruct (select_pair (Z.min a b) (Z.max a b) t) as [|f rest] eqn:Hsel.
  - assert (¬ linked a b t) as Hunlinked
      by (apply select_pair_nil_unlinked; [apply Hvalid | done | done]).
    unfold send_request. cbn [falsy].
    rewrite bool_decide_eq_false_2, decide_False by done. cbn zeta.
    rewrite Hsel. unfold insert.
    destruct (insert_allowed refs _ t) eqn:Hallowed; [| done].
    intros _. cbn [fst].
    split; [done |]. split; [done |]. split; [done |]. split; [done |].
    by eapply valid_insert.
  - assert (linked a b t) as Hlinked.
    { assert (f ∈ select_pair (Z.min a b) (Z.max a b) t) as [[H1 H2] Hf]%select_pair_elem
        by (rewrite Hsel; apply list_elem_of_here).
      exists f. split; [done |]. lia. }
    destruct (send_request_refused refs now new_id a b t Hvalid Hzero Hself Hlinked)
      as (f' & msg & _ & _ & _ & -> & _). done.
Qed.

Lemma unlinked_sym a b t : ¬ linked a b t → ¬ linked b a t.
Proof. intros Hab (f & Hf & Hlink). apply Hab. exists f. tauto. Qed.

(** X10: a friend request stands for both directions. After a request
    from [a] to [b] has been stored (201), a request from [b] to [a], or
    again from [a] to [b], is answered 400 'Friend request already
    pending' and changes nothing. *)
Theorem X10_request_blocks_both_directions refs now new_id a b t now' new_id' :
  valid t →
  new_id ∉ id <$> t →
  a ≠ 0 →
  code (send_request refs now new_id a (Some b) t).2 = 201 →
  let t' := (send_request refs now new_id a (Some b) t).1 in
  send_request refs now' new_id' b (Some a) t'
  = (t', mkReply 400 false "Friend request already pending")
  ∧ send_request refs now' new_id' a (Some b) t'
    = (t', mkReply 400 false "Friend request already pending").
Proof.
  intros Hvalid Hfresh Ha H201 t'.
  destruct (send_request_201 _ now new_id a b t Hvalid Hfresh H201)
    as (Hb & Hne & Hunlinked & Ht' & _).
  subst t'. rewrite Ht'.
  set (row := mkFriendship new_id (Z.min a b) (Z.max a b) pending a now now).
  assert (select_pair (Z.min a b) (Z.max a b) (t ++ [row]) = [row]) as Hsel.
  { unfold select_pair. rewrite filter_app.
    fold (select_pair (Z.min a b) (Z.max a b) t).
    replace (select_pair (Z.min a b) (Z.max a b) t) with (@nil Friendship)
      by (symmetry; apply select_pair_nil_unlinked; [apply Hvalid | done | done]).
    by rewrite filter_cons_True, filter_nil by done. }
  split.
  - unfold send_request. cbn [falsy].
    rewrite bool_decide_eq_false_2, decide_False by done. cbn zeta.
    by rewrite (Z.min_comm b a), (Z.max_comm b a), Hsel.
  - unfold send_request. cbn [falsy].
    rewrite bool_decide_eq_false_2, decide_False by done. cbn zeta.
    by rewrite Hsel.
Qed.

Lemma X10_request_blocks_both_directions_witness :
  valid sample_table
  ∧ (2 ∉ id <$> sample_table)
  ∧ 9 ≠ 0
  ∧ code (send_request (foreign_keys sample_users) 200 2 9 (Some 3) sample_table).2 = 201
  ∧ (let t' := (send_request (foreign_keys sample_users) 200 2 9 (Some 3)
                  sample_table).1 in
     send_request (foreign_keys sample_users) 300 5 3 (Some 9) t'
     = (t', mkReply 400 false "Friend request already pending")
     ∧ send_request (foreign_keys sample_users) 300 5 9 (Some 3) t'
       = (t', mkReply 400 false "Friend request already pending")).
Proof.
  assert (valid sample_table) as Hvalid.
  { repeat split; cbn.
    - apply Forall_singleton. cbn. lia.
    - apply NoDup_singleton.
    - apply NoDup_singleton. }
  assert (2 ∉ id <$> sample_table) as Hfresh
    by (cbn; intros Hin%list_elem_of_singleton; discriminate).
  assert (9 ≠ 0) as Ha by lia.
  assert (code (send_request (foreign_keys sample_users) 200 2 9 (Some 3)
                  sample_table).2 = 201) as H201
    by (vm_compute; reflexivity).
  split; [exact Hvalid |]. split; [exact Hfresh |]. split; [exact Ha |].
  split; [exact H201 |].
  exact (X10_request_blocks_both_directions _ 200 2 9 3 _ 300 5 Hvalid Hfresh Ha H201).
Defined.


Lemma update_fresh now me rid t :
  rid ∉ id <$> t → update_accepted now me rid t = t.
Proof.
  intros Hfresh. unfold update_accepted. induction t as [|f t IH]; [done |].
  rewrite fmap_cons, not_elem_of_cons in Hfresh. destruct Hfresh as [Hne Hfresh].
  rewrite fmap_cons, decide_False by done. f_equal. by apply IH.
Qed.

Lemma select_pending_fresh rid me t :
  rid ∉ id <$> t → select_pending_request rid me t = [].
Proof.
  intros Hfresh. unfold select_pending_request. induction t as [|f t IH]; [done |].
  rewrite fmap_cons, not_elem_of_cons in Hfresh. destruct Hfresh as [Hne Hfresh].
  rewrite filter_cons_False by (intros [? _]; congruence). by apply IH.
Qed.

(** The lookup of the accept and reject routes on a table whose last row
    is the request [a] sent to [b]. *)
Lemma select_pending_appended created updated new_id a b actor st me t :
  new_id ∉ id <$> t →
  a ≠ b →
  select_pending_request new_id me
    (t ++ [mkFriendship new_id (Z.min a b) (Z.max a b) st actor created updated])
  = if decide ((me = a ∨ me = b) ∧ st = pending)
    then [mkFriendship new_id (Z.min a b) (Z.max a b) st actor created updated]
    else [].
Proof.
  intros Hfresh Hne. unfold select_pending_request. rewrite filter_app.
  fold (select_pending_request new_id me t).
  rewrite select_pending_fresh by done. cbn [app].
  case_decide as Hme.
  - rewrite filter_cons_True, filter_nil; [done |]. cbn. split; [done |].
    split; [lia | tauto].
  - rewrite filter_cons_False, filter_nil; [done |]. cbn.
    intros (_ & Hparty & Hst). apply Hme. split; [lia | done].
Qed.

Lemma update_appended now new_id a b actor now0 now' me t :
  new_id ∉ id <$> t →
  update_accepted now' me new_id
    (t ++ [mkFriendship new_id (Z.min a b) (Z.max a b) pending actor now0 now])
  = t ++ [mkFriendship new_id (Z.min a b) (Z.max a b) accepted me now0 now'].
Proof.
  intros Hfresh. unfold update_accepted. rewrite fmap_app.
  fold (update_accepted now' me new_id t). rewrite update_fresh by done.
  cbn. by rewrite decide_True.
Qed.

(** X11: the accept route checks that the caller is one of the two users
    of a pending request, not which of them sent it. After [a]'s request
    to [b] has been stored, either of them, the requester included, can
    accept it: the row becomes accepted with the accepting user as acting
    user, and no further accept of that row succeeds; a third user gets
    404 and changes nothing. *)
Theorem X11_either_party_may_accept refs now new_id a b t now' me :
  valid t →
  new_id ∉ id <$> t →
  code (send_request refs now new_id a (Some b) t).2 = 201 →
  let t' := (send_request refs now new_id a (Some b) t).1 in
  let friends := t ++ [mkFriendship new_id (Z.min a b) (Z.max a b) accepted me now now'] in
  (me = a ∨ me = b →
     accept_request now' me new_id t'
     = (friends, mkReply 200 true "Friend request accepted successfully")
     ∧ ∀ now'' me', accept_request now'' me' new_id friends
                    = (friends, mkReply 404 false "Friend request not found"))
  ∧ (me ≠ a → me ≠ b →
     accept_request now' me new_id t'
     = (t', mkReply 404 false "Friend request not found")).
Proof.
  intros Hvalid Hfresh H201 t' friends.
  destruct (send_request_201 _ now new_id a b t Hvalid Hfresh H201)
    as (Hb & Hne & Hunlinked & Ht' & _).
  subst t' friends. rewrite Ht'. split.
  - intros Hparty. split.
    + unfold accept_request. rewrite select_pending_appended by done.
      rewrite decide_True by done. by rewrite update_appended.
    + intros now'' me'. unfold accept_request.
      rewrite select_pending_appended by done.
      by rewrite decide_False by (by intros [_ ?]).
  - intros Ha Hb'. unfold accept_request. rewrite select_pending_appended by done.
    by rewrite decide_False by (intros [[?|?] _]; congruence).
Qed.

Lemma X11_either_party_may_accept_witness :
  valid sample_table
  ∧ (2 ∉ id <$> sample_table)
  ∧ code (send_request (foreign_keys sample_users) 200 2 9 (Some 3) sample_table).2 = 201
  ∧ (let t' := (send_request (foreign_keys sample_users) 200 2 9 (Some 3)
                  sample_table).1 in
     let friends := sample_table
                    ++ [mkFriendship 2 (Z.min 9 3) (Z.max 9 3) accepted 9 200 300] in
     (9 = 9 ∨ 9 = 3 →
        accept_request 300 9 2 t'
        = (friends, mkReply 200 true "Friend request accepted successfully")
        ∧ ∀ now'' me', accept_request now'' me' 2 friends
                       = (friends, mkReply 404 false "Friend request not found"))
     ∧ (9 ≠ 9 → 9 ≠ 3 →
        accept_request 300 9 2 t'
        = (t', mkReply 404 false "Friend request not found"))).
Proof.
  assert (valid sample_table) as Hvalid.
  { repeat split; cbn.
    - apply Forall_singleton. cbn. lia.
    - apply NoDup_singleton.
    - apply NoDup_singleton. }
  assert (2 ∉ id <$> sample_table) as Hfresh
    by (cbn; intros Hin%list_elem_of_singleton; discriminate).
  assert (code (send_request (foreign_keys sample_users) 200 2 9 (Some 3)
                  sample_table).2 = 201) as H201
    by (vm_compute; reflexivity).
  split; [exact Hvalid |]. split; [exact Hfresh |]. split; [exact H201 |].
  exact (X11_either_party_may_accept _ 200 2 9 3 _ 300 9 Hvalid Hfresh H201).
Defined.


(** X12: rejecting undoes the request. After [a]'s request to [b] has
    been stored, a reject by either of the two users deletes that row and
    leaves the table exactly as it was before the request; a reject by a
    third user gets 404 and changes nothing. *)
Theorem X12_reject_restores_table refs now new_id a b t me :
  valid t →
  new_id ∉ id <$> t →
  code (send_request refs now new_id a (Some b) t).2 = 201 →
  let t' := (send_request refs now new_id a (Some b) t).1 in
  (me = a ∨ me = b →
     reject_request me new_id t' = (t, mkReply 200 true "Friend request rejected"))
  ∧ (me ≠ a → me ≠ b →
     reject_request me new_id t'
     = (t', mkReply 404 false "Friend request not found")).
Proof.
  intros Hvalid Hfresh H201 t'.
  destruct (send_request_201 _ now new_id a b t Hvalid Hfresh H201)
    as (Hb & Hne & Hunlinked & Ht' & _).
  subst t'. rewrite Ht'. split.
  - intros Hparty. unfold reject_request.
    rewrite select_pending_appended, decide_True by done.
    by rewrite (delete_appended (mkFriendship new_id _ _ _ _ _ _)).
  - intros Ha Hb'. unfold reject_request. rewrite select_pending_appended by done.
    by rewrite decide_False by (intros [[?|?] _]; congruence).
Qed.

Lemma X12_reject_restores_table_witness :
  valid sample_table
  ∧ (2 ∉ id <$> sample_table)
  ∧ code (send_request (foreign_keys sample_users) 200 2 9 (Some 3) sample_table).2 = 201
  ∧ (let t' := (send_request (foreign_keys sample_users) 200 2 9 (Some 3)
                  sample_table).1 in
     (3 = 9 ∨ 3 = 3 →
        reject_request 3 2 t'
        = (sample_table,
           mkReply 200 true "Friend request rejected"))
     ∧ (3 ≠ 9 → 3 ≠ 3 →
        reject_request 3 2 t'
        = (t', mkReply 404 false "Friend request not found"))).
Proof.
  assert (valid sample_table) as Hvalid.
  { repeat split; cbn.
    - apply Forall_singleton. cbn. lia.
    - apply NoDup_singleton.
    - apply NoDup_singleton. }
  assert (2 ∉ id <$> sample_table) as Hfresh
    by (cbn; intros Hin%list_elem_of_singleton; discriminate).
  assert (code (send_request (foreign_keys sample_users) 200 2 9 (Some 3)
                  sample_table).2 = 201) as H201
    by (vm_compute; reflexivity).
  split; [exact Hvalid |]. split; [exact Hfresh |]. split; [exact H201 |].
  exact (X12_reject_restores_table _ 200 2 9 3 _ 3 Hvalid Hfresh H201).
Defined.

Lemma select_accepted_unlinked me friendId t :
  ¬ linked me friendId t → select_accepted_between me friendId t = [].
Proof.
  intros Hunlinked. unfold select_accepted_between.
  destruct (filter _ t) as [|f rest] eqn:Hsel; [done |].
  assert (f ∈ filter (λ f, ((user_id1 f = me ∧ user_id2 f = friendId)
                            ∨ (user_id1 f = friendId ∧ user_id2 f = me))
                           ∧ status f = accepted) t) as Hin
    by (rewrite Hsel; apply list_elem_of_here).
  apply list_elem_of_filter in Hin as [[Hlink _] Hf].
  destruct Hunlinked. by exists f.
Qed.

Lemma select_accepted_appended created updated new_id a b actor st me friendId t :
  ¬ linked a b t →
  a ≠ b →
  (me = a ∧ friendId = b) ∨ (me = b ∧ friendId = a) →
  select_accepted_between me friendId
    (t ++ [mkFriendship new_id (Z.min a b) (Z.max a b) st actor created updated])
  = if decide (st = accepted)
    then [mkFriendship new_id (Z.min a b) (Z.max a b) st actor created updated]
    else [].
Proof.
  intros Hunlinked Hne Hwho. unfold select_accepted_between. rewrite filter_app.
  fold (select_accepted_between me friendId t).
  rewrite select_accepted_unlinked; [| destruct Hwho as [[-> ->]|[-> ->]];
                                       [done | by apply unlinked_sym]].
  cbn [app]. case_decide as Hst.
  - rewrite filter_cons_True, filter_nil; [done |]. cbn. split; [lia | done].
  - rewrite filter_cons_False, filter_nil; [done |]. cbn. by intros [_ ?].
Qed.

(** X13: removing a friend undoes the friendship, and works on accepted
    rows only. After [a]'s request to [b] has been stored and accepted,
    either user can remove the other, which deletes the row and leaves the
    table exactly as it was before the request; while the request is still
    pending, removing answers 404 and changes nothing. *)
Theorem X13_remove_friend_restores_table refs now new_id a b t now' accepter me friendId :
  valid t →
  new_id ∉ id <$> t →
  code (send_request refs now new_id a (Some b) t).2 = 201 →
  (me = a ∧ friendId = b) ∨ (me = b ∧ friendId = a) →
  let t' := (send_request refs now new_id a (Some b) t).1 in
  let friends :=
    t ++ [mkFriendship new_id (Z.min a b) (Z.max a b) accepted accepter now now'] in
  remove_friend me friendId friends
  = (t, mkReply 200 true "Friend removed successfully")
  ∧ remove_friend me friendId t'
    = (t', mkReply 404 false "Friendship not found").
Proof.
  intros Hvalid Hfresh H201 Hwho t' friends.
  destruct (send_request_201 _ now new_id a b t Hvalid Hfresh H201)
    as (Hb & Hne & Hunlinked & Ht' & _).
  subst t' friends. rewrite Ht'. split.
  - unfold remove_friend. rewrite select_accepted_appended by done.
    rewrite decide_True by done. cbn [id].
    by rewrite (delete_appended (mkFriendship new_id _ _ _ _ _ _)).
  - unfold remove_friend. rewrite select_accepted_appended by done.
    by rewrite decide_False.
Qed.

Lemma X13_remove_friend_restores_table_witness :
  valid sample_table
  ∧ (2 ∉ id <$> sample_table)
  ∧ code (send_request (foreign_keys sample_users) 200 2 9 (Some 3) sample_table).2 = 201
  ∧ ((3 = 9 ∧ 9 = 3) ∨ (3 = 3 ∧ 9 = 9))
  ∧ (let t' := (send_request (foreign_keys sample_users) 200 2 9 (Some 3)
                  sample_table).1 in
     let friends :=
       sample_table
       ++ [mkFriendship 2 (Z.min 9 3) (Z.max 9 3) accepted 3 200 300] in
     remove_friend 3 9 friends
     = (sample_table,
        mkReply 200 true "Friend removed successfully")
     ∧ remove_friend 3 9 t'
       = (t', mkReply 404 false "Friendship not found")).
Proof.
  assert (valid sample_table) as Hvalid.
  { repeat split; cbn.
    - apply Forall_singleton. cbn. lia.
    - apply NoDup_singleton.
    - apply NoDup_singleton. }
  assert (2 ∉ id <$> sample_table) as Hfresh
    by (cbn; intros Hin%list_elem_of_singleton; discriminate).
  assert (code (send_request (foreign_keys sample_users) 200 2 9 (Some 3)
                  sample_table).2 = 201) as H201
    by (vm_compute; reflexivity).
  assert ((3 = 9 ∧ 9 = 3) ∨ (3 = 3 ∧ 9 = 9)) as Hwho by (right; split; reflexivity).
  split; [exact Hvalid |]. split; [exact Hfresh |]. split; [exact H201 |].
  split; [exact Hwho |].
  exact (X13_remove_friend_restores_table _ 200 2 9 3 _ 300 3 3 9
           Hvalid Hfresh H201 Hwho).
Defined.


(** ** The list routes *)

Lemma join_users_elem users t f u1 u2 :
  (f, u1, u2) ∈ join_users users t ↔
  f ∈ t ∧ (u1 ∈ users ∧ user_id1 f = user_id u1)
  ∧ (u2 ∈ users ∧ user_id2 f = user_id u2).
Proof.
  unfold join_users. rewrite list_elem_of_bind. split.
  - intros (f' & Hin & Hf'). apply list_elem_of_bind in Hin as (u1' & Hin & Hu1).
    apply list_elem_of_bind in Hin as (u2' & Hin & Hu2).
    apply list_elem_of_singleton in Hin as [= -> -> ->].
    apply list_elem_of_filter in Hu1 as [? ?].
    apply list_elem_of_filter in Hu2 as [? ?]. done.
  - intros (Hf & [Hu1 H1] & [Hu2 H2]). exists f. split; [| done].
    apply list_elem_of_bind. exists u1. split; [| by apply list_elem_of_filter].
    apply list_elem_of_bind. exists u2. split; [| by apply list_elem_of_filter].
    by apply list_elem_of_singleton.
Qed.

(** The row with a given id, in a table whose last row carries a fresh id. *)
Lemma appended_row_by_id row t f :
  id row ∉ id <$> t → f ∈ t ++ [row] → id f = id row → f = row.
Proof.
  intros Hfresh [Hf|Hf%list_elem_of_singleton]%elem_of_app Hid; [| done].
  destruct Hfresh. rewrite <- Hid. by apply list_elem_of_fmap_2.
Qed.


Lemma get_requests_elem me users t item :
  item ∈ get_requests me users t ↔
  ∃ f u1 u2,
    (f, u1, u2) ∈ join_users users t
    ∧ ((user_id1 f = me ∨ user_id2 f = me) ∧ status f = pending
       ∧ action_user_id f ≠ me)
    ∧ item = mkRequestItem (id f)
               (mkOtherUser
                  (if bool_decide (user_id1 f = me) then user_id2 f else user_id1 f)
                  (if bool_decide (user_id1 f = me) then username u2 else username u1)
                  (if bool_decide (user_id1 f = me)
                   then display_name u2 else display_name u1)
                  (if bool_decide (user_id1 f = me)
                   then profile_picture_url u2 else profile_picture_url u1))
               (status f) (created_at f).
Proof.
  unfold get_requests. rewrite list_elem_of_fmap. split.
  - intros ([[f u1] u2] & -> & [Hwhere Hin]%list_elem_of_filter). by exists f, u1, u2.
  - intros (f & u1 & u2 & Hin & Hwhere & ->). exists (f, u1, u2).
    split; [done |]. by apply list_elem_of_filter.
Qed.

Lemma get_friends_elem me users t item :
  item ∈ get_friends me users t ↔
  ∃ f u1 u2,
    (f, u1, u2) ∈ join_users users t
    ∧ ((user_id1 f = me ∨ user_id2 f = me) ∧ status f = accepted)
    ∧ item = mkFriendItem
               (if bool_decide (user_id u1 = me) then user_id u2 else user_id u1)
               (if bool_decide (user_id u1 = me) then username u2 else username u1)
               (if bool_decide (user_id u1 = me)
                then display_name u2 else display_name u1)
               (if bool_decide (user_id u1 = me)
                then profile_picture_url u2 else profile_picture_url u1)
               (if bool_decide (user_id u1 = me)
                then user_status u2 else user_status u1)
               (id f) (updated_at f).
Proof.
  unfold get_friends. rewrite list_elem_of_fmap. split.
  - intros ([[f u1] u2] & -> & [Hwhere Hin]%list_elem_of_filter). by exists f, u1, u2.
  - intros (f & u1 & u2 & Hin & Hwhere & ->). exists (f, u1, u2).
    split; [done |]. by apply list_elem_of_filter.
Qed.

(** The users joined to the row stored for [a] and [b]. *)
Lemma join_users_appended users t row a b ua ub :
  user_id1 row = Z.min a b → user_id2 row = Z.max a b →
  ua ∈ users → user_id ua = a →
  ub ∈ users → user_id ub = b →
  (row, (if decide (a ≤ b)%Z then ua else ub), (if decide (a ≤ b)%Z then ub else ua))
    ∈ join_users users (t ++ [row]).
Proof.
  intros H1 H2 Hua Ha Hub Hb. apply join_users_elem.
  split; [apply elem_of_app; right; apply list_elem_of_here |].
  case_decide; (split; (split; [done | lia])).
Qed.

(** X14: a stored request is listed for the addressee and not for the
    sender. After [a]'s request to [b] has been stored, and with both
    users present in [users], the incoming requests of [b] contain the
    new row with [a] as the other user, the incoming requests of [a] do
    not contain it, and no list of incoming requests ever names its own
    reader as the other user. *)
Theorem X14_request_listed_for_addressee_only refs now new_id a b t users ua ub :
  valid t →
  new_id ∉ id <$> t →
  ua ∈ users → user_id ua = a →
  ub ∈ users → user_id ub = b →
  code (send_request refs now new_id a (Some b) t).2 = 201 →
  let t' := (send_request refs now new_id a (Some b) t).1 in
  mkRequestItem new_id
    (mkOtherUser a (username ua) (display_name ua) (profile_picture_url ua))
    pending now ∈ get_requests b users t'
  ∧ (∀ item, item ∈ get_requests a users t' → request_id item ≠ new_id)
  ∧ (∀ me item, item ∈ get_requests me users t' →
                other_id (otherUser item) ≠ me ∧ request_status item = pending).
Proof.
  intros Hvalid Hfresh Hua Ha Hub Hb H201 t'.
  destruct (send_request_201 _ now new_id a b t Hvalid Hfresh H201)
    as (Hb0 & Hne & Hunlinked & Ht' & Hvalid').
  subst t'. rewrite Ht' in *.
  set (row := mkFriendship new_id (Z.min a b) (Z.max a b) pending a now now) in *.
  split; [| split].
  - apply get_requests_elem.
    exists row, (if decide (a ≤ b)%Z then ua else ub), (if decide (a ≤ b)%Z then ub else ua).
    split; [by apply join_users_appended |].
    split; [cbn; split; [lia | done] |].
    cbn [row id user_id1 user_id2 status created_at].
    case_decide.
    + rewrite bool_decide_eq_false_2 by lia.
      by rewrite Z.min_l by lia.
    + rewrite bool_decide_eq_true_2 by lia.
      by rewrite Z.max_l by lia.
  - intros item (f & u1 & u2 & Hin & (_ & _ & Hactor) & ->)%get_requests_elem Hid.
    cbn in Hid. apply join_users_elem in Hin as (Hf & _ & _).
    apply (appended_row_by_id row t f) in Hf; [| done | done].
    subst f. by cbn in Hactor.
  - intros me item (f & u1 & u2 & Hin & (Hparty & Hst & _) & ->)%get_requests_elem.
    cbn. split; [| done]. apply join_users_elem in Hin as (Hf & _ & _).
    destruct Hvalid' as [Hordered _]. rewrite Forall_forall in Hordered.
    specialize (Hordered f Hf). case_bool_decide; lia.
Qed.


Lemma X14_request_listed_for_addressee_only_witness :
  valid sample_table
  ∧ (2 ∉ id <$> sample_table)
  ∧ mkUser 9 "ivan" (Some "Ivan") (Some "/img/ivan.png") "away" ∈ sample_users
  ∧ user_id (mkUser 9 "ivan" (Some "Ivan") (Some "/img/ivan.png") "away") = 9
  ∧ mkUser 3 "carol" (Some "Carol") None "online" ∈ sample_users
  ∧ user_id (mkUser 3 "carol" (Some "Carol") None "online") = 3
  ∧ code (send_request (foreign_keys sample_users) 200 2 9 (Some 3) sample_table).2 = 201
  ∧ (let t' := (send_request (foreign_keys sample_users) 200 2 9 (Some 3) sample_table).1 in
     mkRequestItem 2
       (mkOtherUser 9 "ivan" (Some "Ivan") (Some "/img/ivan.png"))
       pending 200 ∈ get_requests 3 sample_users t'
     ∧ (∀ item, item ∈ get_requests 9 sample_users t' → request_id item ≠ 2)
     ∧ (∀ me item, item ∈ get_requests me sample_users t' →
                   other_id (otherUser item) ≠ me ∧ request_status item = pending)).
Proof.
  assert (valid sample_table) as Hvalid.
  { repeat split; cbn.
    - apply Forall_singleton. cbn. lia.
    - apply NoDup_singleton.
    - apply NoDup_singleton. }
  assert (2 ∉ id <$> sample_table) as Hfresh
    by (cbn; intros Hin%list_elem_of_singleton; discriminate).
  assert (mkUser 9 "ivan" (Some "Ivan") (Some "/img/ivan.png") "away" ∈ sample_users)
    as Hua by (do 2 apply list_elem_of_further; apply list_elem_of_here).
  assert (mkUser 3 "carol" (Some "Carol") None "online" ∈ sample_users)
    as Hub by apply list_elem_of_here.
  assert (code (send_request (foreign_keys sample_users) 200 2 9 (Some 3) sample_table).2 = 201) as H201
    by (vm_compute; reflexivity).
  split; [exact Hvalid |]. split; [exact Hfresh |]. split; [exact Hua |].
  split; [reflexivity |]. split; [exact Hub |]. split; [reflexivity |].
  split; [exact H201 |].
  exact (X14_request_listed_for_addressee_only _ 200 2 9 3 sample_table sample_users
           _ _ Hvalid Hfresh Hua eq_refl Hub eq_refl H201).
Defined.

(** X15: an accepted friendship is listed for both users. With both
    users present in [users], once [a]'s request to [b] has been accepted
    the friends of [a] contain [b] and the friends of [b] contain [a],
    each with the id of the row and the time of acceptance; while the
    request is pending neither list contains the row; and no list of
    friends ever names its own reader. *)
Theorem X15_friends_listed_both_ways refs now new_id a b t users ua ub now' accepter :
  valid t →
  new_id ∉ id <$> t →
  ua ∈ users → user_id ua = a →
  ub ∈ users → user_id ub = b →
  code (send_request refs now new_id a (Some b) t).2 = 201 →
  let t' := (send_request refs now new_id a (Some b) t).1 in
  let friends :=
    t ++ [mkFriendship new_id (Z.min a b) (Z.max a b) accepted accepter now now'] in
  mkFriendItem b (username ub) (display_name ub) (profile_picture_url ub)
    (user_status ub) new_id now' ∈ get_friends a users friends
  ∧ mkFriendItem a (username ua) (display_name ua) (profile_picture_url ua)
      (user_status ua) new_id now' ∈ get_friends b users friends
  ∧ (∀ me item, item ∈ get_friends me users t' → friendship_id item ≠ new_id)
  ∧ (∀ me item, item ∈ get_friends me users friends → friend_id item ≠ me).
Proof.
  intros Hvalid Hfresh Hua Ha Hub Hb H201 t' friends.
  destruct (send_request_201 _ now new_id a b t Hvalid Hfresh H201)
    as (Hb0 & Hne & Hunlinked & Ht' & _).
  subst t' friends. rewrite Ht'.
  set (row := mkFriendship new_id (Z.min a b) (Z.max a b) accepted accepter now now').
  split; [| split; [| split]].
  - apply get_friends_elem.
    exists row, (if decide (a ≤ b)%Z then ua else ub),
           (if decide (a ≤ b)%Z then ub else ua).
    split; [by apply join_users_appended |].
    split; [cbn; split; [lia | done] |].
    cbn [row id updated_at]. case_decide.
    + by rewrite bool_decide_eq_true_2, Hb by done.
    + rewrite bool_decide_eq_false_2 by lia. by rewrite Hb.
  - apply get_friends_elem.
    exists row, (if decide (a ≤ b)%Z then ua else ub),
           (if decide (a ≤ b)%Z then ub else ua).
    split; [by apply join_users_appended |].
    split; [cbn; split; [lia | done] |].
    cbn [row id updated_at]. case_decide.
    + rewrite bool_decide_eq_false_2 by lia. by rewrite Ha.
    + by rewrite bool_decide_eq_true_2, Ha by done.
  - intros me item (f & u1 & u2 & Hin & (_ & Hst) & ->)%get_friends_elem Hid.
    cbn in Hid. apply join_users_elem in Hin as (Hf & _ & _).
    apply (appended_row_by_id
             (mkFriendship new_id (Z.min a b) (Z.max a b) pending a now now) t f)
      in Hf; [| done | done].
    subst f. by cbn in Hst.
  - intros me item (f & u1 & u2 & Hin & (Hparty & _) & ->)%get_friends_elem.
    cbn. apply join_users_elem in Hin as (Hf & [_ H1] & [_ H2]).
    assert (user_id1 f < user_id2 f) as Hlt.
    { apply elem_of_app in Hf as [Hf|Hf%list_elem_of_singleton];
        [| subst f; cbn; lia].
      destruct Hvalid as [Hordered _]. rewrite Forall_forall in Hordered.
      by apply Hordered. }
    case_bool_decide; lia.
Qed.

Lemma X15_friends_listed_both_ways_witness :
  valid sample_table
  ∧ (2 ∉ id <$> sample_table)
  ∧ mkUser 9 "ivan" (Some "Ivan") (Some "/img/ivan.png") "away" ∈ sample_users
  ∧ user_id (mkUser 9 "ivan" (Some "Ivan") (Some "/img/ivan.png") "away") = 9
  ∧ mkUser 3 "carol" (Some "Carol") None "online" ∈ sample_users
  ∧ user_id (mkUser 3 "carol" (Some "Carol") None "online") = 3
  ∧ code (send_request (foreign_keys sample_users) 200 2 9 (Some 3) sample_table).2 = 201
  ∧ (let t' := (send_request (foreign_keys sample_users) 200 2 9 (Some 3) sample_table).1 in
     let friends :=
       sample_table ++ [mkFriendship 2 (Z.min 9 3) (Z.max 9 3) accepted 3 200 300] in
     mkFriendItem 3 "carol" (Some "Carol") None "online" 2 300
       ∈ get_friends 9 sample_users friends
     ∧ mkFriendItem 9 "ivan" (Some "Ivan") (Some "/img/ivan.png") "away" 2 300
         ∈ get_friends 3 sample_users friends
     ∧ (∀ me item, item ∈ get_friends me sample_users t' → friendship_id item ≠ 2)
     ∧ (∀ me item, item ∈ get_friends me sample_users friends → friend_id item ≠ me)).
Proof.
  assert (valid sample_table) as Hvalid.
  { repeat split; cbn.
    - apply Forall_singleton. cbn. lia.
    - apply NoDup_singleton.
    - apply NoDup_singleton. }
  assert (2 ∉ id <$> sample_table) as Hfresh
    by (cbn; intros Hin%list_elem_of_singleton; discriminate).
  assert (mkUser 9 "ivan" (Some "Ivan") (Some "/img/ivan.png") "away" ∈ sample_users)
    as Hua by (do 2 apply list_elem_of_further; apply list_elem_of_here).
  assert (mkUser 3 "carol" (Some "Carol") None "online" ∈ sample_users)
    as Hub by apply list_elem_of_here.
  assert (code (send_request (foreign_keys sample_users) 200 2 9 (Some 3) sample_table).2 = 201) as H201
    by (vm_compute; reflexivity).
  split; [exact Hvalid |]. split; [exact Hfresh |]. split; [exact Hua |].
  split; [reflexivity |]. split; [exact Hub |]. split; [reflexivity |].
  split; [exact H201 |].
  exact (X15_friends_listed_both_ways _ 200 2 9 3 sample_table sample_users
           _ _ 300 3 Hvalid Hfresh Hua eq_refl Hub eq_refl H201).
Defined.

End FriendshipFacts.

(** * Properties of the read-receipt route *)

Module ReadReceiptFacts.

Import ReadReceipts.

Lemma select_access_nil messageId me messages participants :
  select_access messageId me messages participants = [] ↔
  ¬ has_access messageId me messages participants.
Proof.
  split.
  - intros Hnil (m & cp & Hm & Hcp & Hid & Hconv & Hme).
    assert (message_conversation_id m
              ∈ select_access messageId me messages participants) as Hin.
    { unfold select_access. apply list_elem_of_bind. exists m. split; [| done].
      apply list_elem_of_bind. exists cp. split; [| by apply list_elem_of_filter].
      rewrite decide_True by done. apply list_elem_of_here. }
    rewrite Hnil in Hin. by apply elem_of_nil in Hin.
  - intros Hdenied.
    destruct (select_access messageId me messages participants) as [|c rest] eqn:Hsel;
      [done |].
    assert (c ∈ select_access messageId me messages participants) as Hin
      by (rewrite Hsel; apply list_elem_of_here).
    unfold select_access in Hin.
    apply list_elem_of_bind in Hin as (m & Hin & Hm).
    apply list_elem_of_bind in Hin as (cp & Hin & [Hconv Hcp]%list_elem_of_filter).
    case_decide as Hwhere; [| by apply elem_of_nil in Hin].
    destruct Hdenied. exists m, cp. naive_solver.
Qed.

Lemma upsert_pairs_updated now messageId me (receipts : list Receipt) :
  (λ r, (message_id r, user_id r))
    <$> ((λ r, if decide (message_id r = messageId ∧ user_id r = me)
               then mkReceipt (receipt_id r) (message_id r) (user_id r) now
               else r) <$> receipts)
  = (λ r, (message_id r, user_id r)) <$> receipts.
Proof.
  rewrite <- list_fmap_compose. apply list_fmap_ext. intros _ r _. cbn.
  by case_decide.
Qed.

Lemma upsert_receipt_spec refs now new_id messageId me receipts :
  unique_receipts receipts →
  refs me = true →
  ∃ receipts',
    upsert_receipt refs now new_id messageId me receipts = Some receipts'
    ∧ unique_receipts receipts'
    ∧ (∃ r, r ∈ receipts' ∧ message_id r = messageId ∧ user_id r = me
            ∧ read_at r = now)
    ∧ (∀ r, r ∈ receipts → ¬ (message_id r = messageId ∧ user_id r = me) →
            r ∈ receipts').
Proof.
  intros Hunique Rme. unfold upsert_receipt. case_bool_decide as Hexists.
  - eexists. split; [done |].
    apply Exists_exists in Hexists as (r0 & Hr0 & Hmatch).
    split; [unfold unique_receipts; by rewrite upsert_pairs_updated |]. split.
    + exists (mkReceipt (receipt_id r0) (message_id r0) (user_id r0) now).
      split; [| cbn; tauto].
      apply list_elem_of_fmap. exists r0. by rewrite decide_True.
    + intros r Hr Hother. apply list_elem_of_fmap. exists r. by rewrite decide_False.
  - rewrite Rme. eexists. split; [done |]. split; [| split].
    + unfold unique_receipts. rewrite fmap_app. apply NoDup_app.
      repeat split; [done | | apply NoDup_singleton].
      intros p (r & -> & Hr)%list_elem_of_fmap [= H1 H2]%list_elem_of_singleton.
      apply Hexists, Exists_exists. by exists r.
    + exists (mkReceipt new_id messageId me now). split; [| done].
      apply elem_of_app. right. apply list_elem_of_here.
    + intros r Hr _. apply elem_of_app. by left.
Qed.

Lemma upsert_receipt_again refs now new_id messageId me receipts :
  (∃ r, r ∈ receipts ∧ message_id r = messageId ∧ user_id r = me) →
  ∃ receipts',
    upsert_receipt refs now new_id messageId me receipts = Some receipts'
    ∧ length receipts' = length receipts.
Proof.
  intros (r & Hr & H1 & H2). unfold upsert_receipt.
  rewrite bool_decide_eq_true_2 by (apply Exists_exists; by exists r).
  eexists. split; [done |]. by rewrite length_fmap.
Qed.

(** X16: marking a message as read keeps one receipt per message and
    user. For a user who takes part in the message's conversation, as an
    active participant or not, the route answers 200, the receipts hold
    one row for that message and user with the current time, all other
    receipts are kept, and a second marking adds no row; for anyone else
    it answers 404 and changes nothing. *)
Theorem X16_mark_read_keeps_one_receipt refs now new_id me messageId
    messages participants receipts :
  unique_receipts receipts →
  refs me = true →
  let result := mark_read refs now new_id me messageId messages participants receipts in
  (has_access messageId me messages participants →
     code result.2 = 200
     ∧ unique_receipts result.1
     ∧ (∃ r, r ∈ result.1 ∧ message_id r = messageId ∧ user_id r = me
             ∧ read_at r = now)
     ∧ (∀ r, r ∈ receipts → ¬ (message_id r = messageId ∧ user_id r = me) →
             r ∈ result.1)
     ∧ (∀ now2 id2,
          length (mark_read refs now2 id2 me messageId messages participants
                    result.1).1
          = length result.1))
  ∧ (¬ has_access messageId me messages participants →
     result = (receipts, mkReply 404 false "Message not found or access denied")).
Proof.
  intros Hunique Rme result. subst result. split.
  - intros Haccess. unfold mark_read.
    destruct (select_access messageId me messages participants) as [|c rest] eqn:Hsel.
    { by apply select_access_nil in Hsel. }
    destruct (upsert_receipt_spec refs now new_id messageId me receipts Hunique Rme)
      as (receipts' & -> & Hunique' & Hmarked & Hkept).
    cbn [fst snd code]. repeat (split; [done |]).
    intros now2 id2.
    destruct (upsert_receipt_again refs now2 id2 messageId me receipts')
      as (receipts'' & -> & Hlength); [| done].
    destruct Hmarked as (r & Hr & H1 & H2 & _). by exists r.
  - intros Hdenied%select_access_nil. unfold mark_read. by rewrite Hdenied.
Qed.

Lemma X16_mark_read_keeps_one_receipt_witness :
  unique_receipts sample_receipts
  ∧ (λ _ : Z, true) 4 = true
  ∧ (let result := mark_read (λ _, true) 900 2 4 12 sample_messages
                     sample_participants sample_receipts in
     (has_access 12 4 sample_messages sample_participants →
        code result.2 = 200
        ∧ unique_receipts result.1
        ∧ (∃ r, r ∈ result.1 ∧ message_id r = 12 ∧ user_id r = 4 ∧ read_at r = 900)
        ∧ (∀ r, r ∈ sample_receipts → ¬ (message_id r = 12 ∧ user_id r = 4) →
                r ∈ result.1)
        ∧ (∀ now2 id2,
             length (mark_read (λ _, true) now2 id2 4 12 sample_messages
                       sample_participants result.1).1
             = length result.1))
     ∧ (¬ has_access 12 4 sample_messages sample_participants →
        result = (sample_receipts,
                  mkReply 404 false "Message not found or access denied"))).
Proof.
  assert (unique_receipts sample_receipts) as Hunique by apply NoDup_singleton.
  split; [exact Hunique |]. split; [reflexivity |].
  exact (X16_mark_read_keeps_one_receipt (λ _, true) 900 2 4 12 sample_messages
           sample_participants sample_receipts Hunique eq_refl).
Defined.

(** User 4 has left conversation 7 and still marks message 12 as read. *)
Example inactive_participant_marks_read :
  mark_read (λ _, true) 900 2 4 12 sample_messages sample_participants sample_receipts
  = (sample_receipts ++ [mkReceipt 2 12 4 900],
     mkReply 200 true "Message marked as read").
Proof. by vm_compute. Qed.

End ReadReceiptFacts.
